(** * skyeye: the radar scope and the SimpleRadio client supervisor

    A shallow embedding of the radar scope ([pkg/radar/radar.go]) and of the
    SimpleRadio client ([package simpleradio], the third part of
    [pkg/encyclopedia/encyclopedia.go]), with the properties the design
    document states about them.

    Conventions.
    - A Go [float64] is a primitive binary64 float; [a > b] is
      [PrimFloat.ltb b a], [a == b] is [PrimFloat.eqb a b].
    - A Go [uint64] unit ID is an [N]; a Go [int] enumeration is a [Z].
    - A [time.Time] is the instant it denotes, in nanoseconds counted from
      the zero instant; a [time.Duration] is a number of nanoseconds.
    - A concurrent-safe map is the finite map of its contents.
    - What a function writes to the logger or hands to a callback is returned
      next to its result, as a list of effects in program order. *)

From Stdlib Require Import ZArith NArith List String Floats.
From stdpp Require Import base option list gmap strings.

Local Open Scope Z_scope.

(** ** float64 *)

Module float64.

(** Go's [a > b]. *)
Definition gt (a b : float) : bool := PrimFloat.ltb b a.

(** Go's [a != b]. *)
Definition ne (a b : float) : bool := negb (PrimFloat.eqb a b).

(** A float that denotes zero, of either sign. *)
Definition is_zero (x : float) : Prop := exists s, Prim2SF x = S754_zero s.

(** The order of the numbers two floats denote: [a] is below [b], and
    neither is a NaN. *)
Definition less (a b : float) : Prop :=
  SFcompare (Prim2SF a) (Prim2SF b) = Some Lt.

End float64.

(** ** github.com/paulmach/orb *)

Module orb.

(** [orb.Point] is [[2]float64], longitude first. *)
Record Point : Type := mkPoint { Lon : float; Lat : float }.

(** [orb.Point{}] *)
Definition zero : Point := mkPoint 0%float 0%float.

End orb.

(** ** pkg/spatial *)

Module spatial.

(** Modelled from the spec: [spatial.IsZero] is not part of the sources at
    hand. "A position is zero when both coordinates are exactly zero." *)
Definition IsZero (p : orb.Point) : bool :=
  PrimFloat.eqb (orb.Lon p) 0%float && PrimFloat.eqb (orb.Lat p) 0%float.

End spatial.

(** ** time *)

Module time.

Definition Time : Type := Z.
Definition Duration : Type := Z.

Definition Nanosecond : Duration := 1.
Definition Second : Duration := 1000000000 * Nanosecond.
Definition Minute : Duration := 60 * Second.

(** [time.Time{}] *)
Definition zero : Time := 0.

Definition IsZero (t : Time) : bool := t =? 0.
Definition Before (t u : Time) : bool := t <? u.
Definition Add (t : Time) (d : Duration) : Time := t + d.
(** A [Duration] is an [int64]; [Sub] saturates at its bounds. *)
Definition minDuration : Duration := - 2 ^ 63.
Definition maxDuration : Duration := 2 ^ 63 - 1.

Definition Sub (t u : Time) : Duration :=
  Z.max minDuration (Z.min maxDuration (t - u)).

(** [time.Since(t)], with the wall clock reading [now]. *)
Definition Since (now t : Time) : Duration := Sub now t.

End time.

(** ** pkg/coalitions *)

Module coalitions.

(** [radar.go] converts a coalition with [int(coalition)]. *)
Definition Coalition : Type := Z.

End coalitions.

(** ** pkg/trackfiles *)

Module trackfiles.

(** Modelled from the spec: the package is not part of the sources at hand.
    "Labels. Identity metadata about a contact: a stable unit ID (unsigned
    64-bit), a display name, an ACMI-format aircraft short-name, and
    coalition membership." The field names are the ones [radar.go] reads. *)
Record Labels : Type := mkLabels {
  ID : N;
  Name : string;
  ACMIName : string;
  Coalition : coalitions.Coalition
}.

(** Modelled from the spec: "Frame. A timestamped telemetry sample:
    position, altitude, heading (true), and acquisition time." *)
Record Frame : Type := mkFrame {
  Time : time.Time;
  Point : orb.Point;
  Altitude : float;
  Heading : float
}.

(** [Frame{}] *)
Definition zeroFrame : Frame := mkFrame time.zero orb.zero 0%float 0%float.

(** Modelled from the spec: "Trackfile. Owns a Labels record and a bounded,
    time-ordered sequence of Frames". The most recent frame is the head. *)
Record Trackfile : Type := mkTrackfile {
  Contact : Labels;
  Track : list Frame
}.

(** Modelled from the spec: "A trackfile is created on first sighting of a
    unit ID"; [radar.go] builds it from the labels alone. *)
Definition NewTrackfile (labels : Labels) : Trackfile :=
  mkTrackfile labels [].

(** Modelled from the spec: "last_known(): returns the most recent frame."
    A trackfile without frames has the zero frame, whose time is the zero
    instant the garbage collector tests for. *)
Definition LastKnown (t : Trackfile) : Frame :=
  match Track t with
  | [] => zeroFrame
  | f :: _ => f
  end.

(** Modelled from the spec: "append(frame): inserts at the front, trims
    oldest beyond retention." *)
Definition Update (retention : nat) (t : Trackfile) (f : Frame) : Trackfile :=
  mkTrackfile (Contact t) (take retention (f :: Track t)).

End trackfiles.

(** ** pkg/sim *)

Module sim.

(** Modelled from the spec: "Updated{labels, frame}". *)
Record Updated : Type := mkUpdated {
  Labels : trackfiles.Labels;
  Frame : trackfiles.Frame
}.

End sim.

(** ** errors *)

Module errors.

(** A Go [error] value, as far as this code builds and inspects one:
    [errors.New(msg)], [fmt.Errorf(prefix + "%w", err)], and an error
    handed in from outside (a context's, a subtask's, the geomagnetic
    model's), known by its message. A nil [error] is [None] in an
    [option error]. *)
Inductive error : Type :=
| New (msg : string)
| Errorf_w (prefix : string) (err : error).

(** [err.Error()] *)
Fixpoint Error (e : error) : string :=
  match e with
  | New msg => msg
  | Errorf_w prefix err => (prefix ++ Error err)%string
  end.

(** [errors.Unwrap(err)] *)
Definition Unwrap (e : error) : option error :=
  match e with
  | New _ => None
  | Errorf_w _ err => Some err
  end.

End errors.

(** ** github.com/rs/zerolog and callbacks: the observable effects *)

Module effects.

Inductive level : Type := Info | Warn | Error.

(** A registered callback, known by the name of the function value. *)
Definition callback : Type := string.

(** One log line ([Err(err)] when there is one, and the message; the other
    structured fields are left out), or one call of a registered callback
    on a trackfile. *)
Inductive effect : Type :=
| Log (l : level) (err : option errors.error) (msg : string)
| Invoke (f : callback) (t : trackfiles.Trackfile).

Definition is_Invoke (e : effect) : bool :=
  match e with
  | Invoke _ _ => true
  | Log _ _ _ => false
  end.

(** The callback invocations among the effects, in order. *)
Definition invocations (out : list effect) : list effect :=
  List.filter is_Invoke out.

End effects.

(** ** pkg/radar: the contact database *)

Module contactDatabase.

Import trackfiles.

(** Modelled from the spec: [contactDatabase] is not part of the sources at
    hand. "Contact Database. A mapping from unit ID to Trackfile", with
    the operations [get_by_id], [set], [delete], [reset] and [values]
    ("snapshot iterator"); "after set(t) with t.id = i, get_by_id(i)
    returns t until delete(i) or reset()". The database holds pointers and
    every trackfile is stored under its own unit ID only, so a trackfile
    updated in place is the value under that ID replaced. *)
Abbreviation t := (gmap N Trackfile).

Definition newContactDatabase : t := ∅.

(** The Go method returns a pointer and a flag; [None] is the miss. *)
Definition getByID (d : t) (id : N) : option Trackfile := d !! id.

Definition set (d : t) (trackfile : Trackfile) : t :=
  <[ID (Contact trackfile) := trackfile]> d.

Definition delete (d : t) (id : N) : t := base.delete id d.

Definition reset (d : t) : t := ∅.

Definition values (d : t) : list Trackfile := (map_to_list d).*2.

End contactDatabase.

(** ** pkg/radar: the scope *)

Module radar.

Import trackfiles effects.

(** [type scope struct]. The three channels are the inputs of [Run] and
    appear as the events it consumes. *)
Record scope : Type := mkScope {
  missionTime : time.Time;
  bullseyes : gmap Z orb.Point;
  contacts : gmap N Trackfile;
  fadedCallback : option callback;
  removalCallback : option callback;
  center : orb.Point;
  mandatoryThreatRadius : float
}.

Definition with_missionTime (t : time.Time) (s : scope) : scope :=
  mkScope t (bullseyes s) (contacts s) (fadedCallback s) (removalCallback s)
    (center s) (mandatoryThreatRadius s).

Definition with_bullseyes (b : gmap Z orb.Point) (s : scope) : scope :=
  mkScope (missionTime s) b (contacts s) (fadedCallback s) (removalCallback s)
    (center s) (mandatoryThreatRadius s).

Definition with_contacts (d : gmap N Trackfile) (s : scope) : scope :=
  mkScope (missionTime s) (bullseyes s) d (fadedCallback s) (removalCallback s)
    (center s) (mandatoryThreatRadius s).

Definition with_center (p : orb.Point) (s : scope) : scope :=
  mkScope (missionTime s) (bullseyes s) (contacts s) (fadedCallback s)
    (removalCallback s) p (mandatoryThreatRadius s).

Definition with_fadedCallback (f : option callback) (s : scope) : scope :=
  mkScope (missionTime s) (bullseyes s) (contacts s) f (removalCallback s)
    (center s) (mandatoryThreatRadius s).

Definition with_removalCallback (f : option callback) (s : scope) : scope :=
  mkScope (missionTime s) (bullseyes s) (contacts s) (fadedCallback s) f
    (center s) (mandatoryThreatRadius s).

(** [func New]: every field but the contact database and the radius is
    left at its zero value. *)
Definition New (mandatoryThreatRadius : float) : scope :=
  mkScope time.zero ∅ contactDatabase.newContactDatabase None None orb.zero
    mandatoryThreatRadius.

(** [func (s *scope) SetMissionTime] *)
Definition SetMissionTime (t : time.Time) (s : scope) : scope :=
  with_missionTime t s.

(** Modelled from the spec: the two setters are declared in the [Radar]
    interface of [radar.go] and defined outside the sources at hand.
    "SetFadedCallback and SetRemovedCallback register at-most-one handler
    each." *)
Definition SetFadedCallback (f : callback) (s : scope) : scope :=
  with_fadedCallback (Some f) s.

Definition SetRemovedCallback (f : callback) (s : scope) : scope :=
  with_removalCallback (Some f) s.

(** Modelled from the spec: [collectFaded], which [Run] starts as a
    goroutine, is defined outside the sources at hand. "On fade: invoke the
    registered fade callback with the trackfile and drop it. If no callback
    is registered, drop silently." *)
Definition handleFaded (id : N) (s : scope) : scope * list effect :=
  match contactDatabase.getByID (contacts s) id with
  | Some trackfile =>
      (with_contacts (contactDatabase.delete (contacts s) id) s,
       match fadedCallback s with
       | Some f => [Invoke f trackfile]
       | None => []
       end)
  | None => (s, [])
  end.

(** [func (s *scope) Bullseye] *)
Definition Bullseye (s : scope) (coalition : coalitions.Coalition) : orb.Point :=
  match bullseyes s !! coalition with
  | None => orb.zero
  | Some p => p
  end.

(** [func (s *scope) SetBullseye] *)
Definition SetBullseye (bullseye : orb.Point) (coalition : coalitions.Coalition)
    (s : scope) : scope * list effect :=
  let current := Bullseye s coalition in
  let out :=
    if float64.ne (orb.Lon current) (orb.Lon bullseye)
       || float64.ne (orb.Lat current) (orb.Lat bullseye)
    then [Log Info None "updating bullseye"]
    else [] in
  (with_bullseyes (<[coalition := bullseye]> (bullseyes s)) s, out).

(** One turn of the loop of [handleGarbageCollection], on the database as
    the turns before left it. *)
Definition collect (missionTime : time.Time)
    (acc : gmap N Trackfile * list effect) (trackfile : Trackfile)
    : gmap N Trackfile * list effect :=
  let lastSeen := Time (LastKnown trackfile) in
  let isOld := time.Before lastSeen (time.Add missionTime (-1 * time.Minute)) in
  let isNotZero := negb (time.IsZero lastSeen) in
  if isNotZero && isOld
  then (contactDatabase.delete acc.1 (ID (Contact trackfile)),
        acc.2 ++ [Log Info None "removed aged out trackfile"])
  else acc.

(** [func (s *scope) handleGarbageCollection] *)
Definition handleGarbageCollection (s : scope) : scope * list effect :=
  let r := foldl (collect (missionTime s)) (contacts s, [])
             (contactDatabase.values (contacts s)) in
  (with_contacts r.1 s, r.2).

Section Collaborators.

(** What [radar.go] takes from packages that are not among the sources
    at hand: the speed of a trackfile and the knot, the contact
    categories with their wildcard, the encyclopedia lookup, the
    geomagnetic model, the retention of a trackfile and the centroid the
    recenter tick caches. *)
Variable Speed : Trackfile -> float.
Variable unit_Knot : float.
Context {ContactCategory : Type} `{EqDecision ContactCategory}.
Variable brevity_Aircraft : ContactCategory.
Variable Aircraft : Type.
Variable Category : Aircraft -> ContactCategory.
Variable GetAircraftData : string -> Aircraft * bool.
Variable bearings_Declination :
  orb.Point -> time.Time -> float * option errors.error.
Variable retention : nat.
Variable centroid : list Trackfile -> orb.Point.

(** [func isValidTrack] *)
Definition isValidTrack (trackfile : Trackfile) : bool :=
  let isValidPosition := negb (spatial.IsZero (Point (LastKnown trackfile))) in
  let isAboveSpeedFilter :=
    float64.gt (Speed trackfile) (50 * unit_Knot)%float in
  let isValid := isValidPosition && isAboveSpeedFilter in
  isValid.

(** [func (s *scope) isMatch] *)
Definition isMatch (s : scope) (trackfile : Trackfile)
    (coalition : coalitions.Coalition) (filter : ContactCategory) : bool :=
  if negb (Coalition (Contact trackfile) =? coalition) then false
  else if negb (isValidTrack trackfile) then false
  else
    let '(data, ok) := GetAircraftData (ACMIName (Contact trackfile)) in
    let matchesFilter :=
      negb ok || bool_decide (Category data = filter)
      || bool_decide (filter = brevity_Aircraft) in
    matchesFilter.

(** [func (s *scope) Declination] *)
Definition Declination (s : scope) (p : orb.Point) : float * list effect :=
  let '(declination, err) := bearings_Declination p (missionTime s) in
  let out :=
    match err with
    | Some e => [Log Error (Some e) "failed to get declination"]
    | None => []
    end in
  (declination, out).

(** [func (s *scope) handleUpdate] *)
Definition handleUpdate (update : sim.Updated) (s : scope)
    : scope * list effect :=
  match contactDatabase.getByID (contacts s) (ID (sim.Labels update)) with
  | Some trackfile =>
      (* [trackfile.Update(update.Frame)] through the pointer the lookup
         returned: the object under the looked-up ID changes in place *)
      (with_contacts
         (<[ID (sim.Labels update) :=
              Update retention trackfile (sim.Frame update)]> (contacts s)) s,
       [])
  | None =>
      let trackfile := NewTrackfile (sim.Labels update) in
      (with_contacts (contactDatabase.set (contacts s) trackfile) s,
       [Log Info None "created new trackfile"])
  end.

(** Modelled from the spec: [updateCenterPoint] is not part of the
    sources at hand. "On recenter tick: recompute the geographic
    centroid of all valid trackfiles and cache it." *)
Definition updateCenterPoint (s : scope) : scope :=
  with_center
    (centroid (List.filter isValidTrack (contactDatabase.values (contacts s))))
    s.

(** What reaches a scope: the cases of the [select] in [Run], a fade taken
    by the goroutine [Run] starts, and the setters of the control plane.
    [Run] leaves its loop on [ctx.Done()], so a history is the calls and
    events up to some moment, in the order the scope has seen them. *)
Inductive event : Type :=
| Started (missionTimestamp : time.Time)
| Updated (update : sim.Updated)
| GcTick
| RecenterTick
| Faded (id : N)
| CallSetMissionTime (t : time.Time)
| CallSetBullseye (bullseye : orb.Point) (coalition : coalitions.Coalition)
| CallSetFadedCallback (f : callback)
| CallSetRemovedCallback (f : callback).

(** The body of the [select] in [Run], the fade, and the setters. *)
Definition handle (e : event) (s : scope) : scope * list effect :=
  match e with
  | Started missionTimestamp =>
      (with_contacts (contactDatabase.reset (contacts s)) s,
       [Log Info None "clearing all trackfiles due to mission (re)start"])
  | Updated update => handleUpdate update s
  | GcTick => handleGarbageCollection s
  | RecenterTick => (updateCenterPoint s, [])
  | Faded id => handleFaded id s
  | CallSetMissionTime t => (SetMissionTime t s, [])
  | CallSetBullseye bullseye coalition => SetBullseye bullseye coalition s
  | CallSetFadedCallback f => (SetFadedCallback f s, [])
  | CallSetRemovedCallback f => (SetRemovedCallback f s, [])
  end.

(** [Run] on a history: [updateCenterPoint] once, then the loop. *)
Definition loop (history : list event) (s : scope) : scope * list effect :=
  foldl (fun acc e => let r := handle e acc.1 in (r.1, acc.2 ++ r.2))
    (s, []) history.

Definition Run (history : list event) (s : scope) : scope * list effect :=
  loop history (updateCenterPoint s).

End Collaborators.

End radar.

(** ** Go slices *)

Module slice.

(** A Go slice, as far as [nil] and its elements go. *)
Inductive t (A : Type) : Type :=
| nil
| mk (elems : list A).
Arguments nil {A}.
Arguments mk {A} elems.

(** [make([]A, 0)] *)
Definition make0 {A : Type} : t A := mk [].

(** The elements a [for _, x := range s] visits, in order. *)
Definition range {A : Type} (s : t A) : list A :=
  match s with
  | nil => []
  | mk elems => elems
  end.

(** [append(s, x)] *)
Definition append {A : Type} (s : t A) (x : A) : t A := mk (range s ++ [x]).

(** [len(s)] *)
Definition len {A : Type} (s : t A) : nat := length (range s).

End slice.

(** ** package simpleradio: the client *)

Module simpleradio.

Import effects.

Section Client.

(** [types.Modulation] and [unit.Hertz] come from packages that are not
    among the sources at hand. *)
Variable Modulation : Type.
Variable unit_Hertz : float.

(** [types.Radio], with the fields [Frequencies] reads. *)
Record Radio : Type := mkRadio {
  Radio_Frequency : float;
  Radio_Modulation : Modulation
}.

Record RadioInfo : Type := mkRadioInfo { Radios : slice.t Radio }.

(** [types.ClientInfo], with the fields the client reads. *)
Record ClientInfo : Type := mkClientInfo {
  Name : string;
  ClientInfo_RadioInfo : RadioInfo
}.

(** [type RadioFrequency struct] *)
Record RadioFrequency : Type := mkRadioFrequency {
  Frequency : float;
  RadioFrequency_Modulation : Modulation
}.

(** [type client struct]: of the data client, what it answers to [Info()];
    the audio client is read by [Run] only, for [LastPing()] at each tick. *)
Record client : Type := mkClient {
  dataClient_Info : ClientInfo
}.

(** [func (c *client) Name] *)
Definition client_Name (c : client) : string :=
  let info := dataClient_Info c in
  Name info.

(** [func (c *client) Frequencies] *)
Definition Frequencies (c : client) : slice.t RadioFrequency :=
  let info := dataClient_Info c in
  let frequencies := slice.make0 in
  foldl
    (fun frequencies radio =>
       let frequency :=
         mkRadioFrequency (Radio_Frequency radio * unit_Hertz)%float
           (Radio_Modulation radio) in
       slice.append frequencies frequency)
    frequencies
    (slice.range (Radios (ClientInfo_RadioInfo info))).

End Client.

(** The case the [select] in [Run] takes on one turn of its loop, with
    what the case reads: the context's error, the error a subtask sent, or
    the wall clock and the audio client's last ping at a tick. *)
Inductive selected : Type :=
| CtxDone (ctxErr : errors.error)
| ErrorChan (err : errors.error)
| TickerC (now lastPing : time.Time).

(** One turn of the loop of [Run]: the effects, and the error [Run]
    returns with, if it returns on this turn. *)
Definition turn (sel : selected) : list effect * option errors.error :=
  match sel with
  | CtxDone ctxErr =>
      ([Log Info None "stopping SRS client due to context cancelation"],
       Some (errors.Errorf_w "stopping client due to context cancelation: " ctxErr))
  | ErrorChan err =>
      ([], Some (errors.Errorf_w "client error: " err))
  | TickerC now lastPing =>
      if 1 * time.Minute <? time.Since now lastPing
      then ([Log Warn None "stopped receiving pings from SRS data client"],
            Some (errors.New "stopped receiving pings from SRS data client"))
      else ([], None)
  end.

(** [func (c *client) Run], from the ticker on, along the cases its
    [select] takes: [Some err] when it has returned [err], [None] while it
    is still in its loop. *)
Fixpoint Run (choices : list selected) : list effect * option errors.error :=
  match choices with
  | [] => ([], None)
  | sel :: rest =>
      match turn sel with
      | (out, Some err) => (out, Some err)
      | (out, None) => let r := Run rest in (out ++ r.1, r.2)
      end
  end.

End simpleradio.

(** ** package encyclopedia *)

Module encyclopedia.

Section Data.

(** [type Aircraft struct] and the table [aircraftData] are defined in
    other files of the package; [Aircraft()] reads the field
    [ACMIShortName] and ranges over the table in its order. *)
Variable Aircraft : Type.
Variable ACMIShortName : Aircraft -> string.
Variable aircraftData : list Aircraft.

(** [func (e *encyclopedia) Aircraft] *)
Definition encyclopedia_Aircraft : gmap string Aircraft :=
  let out := ∅ in
  foldl (fun out a => <[ACMIShortName a := a]> out) out aircraftData.

End Data.

End encyclopedia.

(** ** package simpleradio: the constructor *)

Module simpleradio_new.

Section NewClient.

(** [types.GUID], [types.ClientConfiguration] and the two protocol clients
    with their constructors come from the packages [types], [data] and
    [audio]. A constructor returns its client and its error side by side. *)
Variable GUID : Type.
Variable ClientConfiguration : Type.
Variable DataClient : Type.
Variable AudioClient : Type.
Variable data_NewClient :
  GUID -> ClientConfiguration -> DataClient * option errors.error.
Variable audio_NewClient :
  GUID -> ClientConfiguration -> AudioClient * option errors.error.

(** [type client struct], with both of its fields as [NewClient] fills
    them. *)
Record client : Type := mkClient {
  dataClient : DataClient;
  audioClient : AudioClient
}.

(** [func NewClient], given the GUID that [types.NewGUID()] draws. A nil
    [Client] is [None]. *)
Definition NewClient (guid : GUID) (config : ClientConfiguration)
    : option client * option errors.error :=
  let '(dataClient, err) := data_NewClient guid config in
  match err with
  | Some err =>
      (None, Some (errors.Errorf_w "failed to construct SRS data client: " err))
  | None =>
      let '(audioClient, err) := audio_NewClient guid config in
      match err with
      | Some err =>
          (None,
           Some (errors.Errorf_w "failed to construct SRS audio client: " err))
      | None => (Some (mkClient dataClient audioClient), None)
      end
  end.

End NewClient.

End simpleradio_new.

(** ** pkg/bearings *)

Module bearings.

(** Modelled from the spec: [bearings.Declination] is not part of the
    sources at hand. "Magnetic declination at a position and time is
    computed from the World Magnetic Model (or equivalent geomagnetic
    model)"; "If the model returns an error, log and fall back to
    declination = 0": next to its error the function hands back the zero
    angle. The geomagnetic model is a parameter; for a point and a time it
    gives an angle or fails. *)
Definition Declination
    (model : orb.Point -> time.Time -> float + errors.error)
    (p : orb.Point) (t : time.Time) : float * option errors.error :=
  match model p t with
  | inl declination => (declination, None)
  | inr err => (0%float, Some err)
  end.

End bearings.

(** * Properties *)

(** ** float64: comparisons against the numbers the floats denote *)

Module float64_facts.

Lemma SFcompare_diag_not_Lt (x : spec_float) : SFcompare x x <> Some Lt.
Proof.
  destruct x as [b | b | | b m e]; simpl; try discriminate.
  - destruct b; discriminate.
  - destruct b; rewrite Z.compare_refl, Pos.compare_cont_refl; discriminate.
Qed.

(** [x > x] is false for every float, NaN included. *)
Lemma gt_irrefl (x : float) : float64.gt x x = false.
Proof.
  unfold float64.gt. rewrite FloatAxioms.ltb_spec. unfold SFltb.
  pose proof (SFcompare_diag_not_Lt (Prim2SF x)) as H.
  destruct (SFcompare (Prim2SF x) (Prim2SF x)) as [[]|]; congruence.
Qed.

(** [a > b] holds exactly when [b] is below [a] as a number. *)
Lemma gt_less (a b : float) : float64.gt a b = true <-> float64.less b a.
Proof.
  unfold float64.gt, float64.less. rewrite FloatAxioms.ltb_spec. unfold SFltb.
  destruct (SFcompare (Prim2SF b) (Prim2SF a)) as [[]|];
    split; congruence.
Qed.

(** [x == 0] holds exactly for the two zeros. *)
Lemma eqb_zero (x : float) :
  PrimFloat.eqb x 0%float = true <-> float64.is_zero x.
Proof.
  unfold float64.is_zero. rewrite FloatAxioms.eqb_spec. unfold SFeqb.
  change (Prim2SF 0%float) with (S754_zero false).
  destruct (Prim2SF x) as [b | b | | b m e]; simpl.
  - split; eauto.
  - split; [destruct b; discriminate | intros [s Hs]; discriminate].
  - split; [discriminate | intros [s Hs]; discriminate].
  - split; [destruct b; discriminate | intros [s Hs]; discriminate].
Qed.

Lemma IsZero_zero (p : orb.Point) :
  spatial.IsZero p = true <->
  float64.is_zero (orb.Lon p) /\ float64.is_zero (orb.Lat p).
Proof.
  unfold spatial.IsZero. rewrite andb_true_iff, !eqb_zero. reflexivity.
Qed.

End float64_facts.

(** ** pkg/radar: validity and matching *)

Module radar_filters.

Import trackfiles radar.

Section Collaborators.

Variable Speed : Trackfile -> float.
Variable unit_Knot : float.
Context {ContactCategory : Type} `{EqDecision ContactCategory}.
Variable brevity_Aircraft : ContactCategory.
Variable Aircraft : Type.
Variable Category : Aircraft -> ContactCategory.
Variable GetAircraftData : string -> Aircraft * bool.

Local Abbreviation isValidTrack := (radar.isValidTrack Speed unit_Knot).
Local Abbreviation isMatch :=
  (radar.isMatch Speed unit_Knot brevity_Aircraft Aircraft Category
     GetAircraftData).

(** C1. A trackfile is valid exactly when its last known position is not
    the zero point (longitude and latitude both zero, of either sign) and
    its speed is above fifty knots. A trackfile at exactly fifty knots is
    not valid, and neither is one whose last known position is the zero
    point, whatever its speed. *)
Theorem isValidTrack_iff (trackfile : Trackfile) :
  (isValidTrack trackfile = true <->
     ~ (float64.is_zero (orb.Lon (Point (LastKnown trackfile)))
        /\ float64.is_zero (orb.Lat (Point (LastKnown trackfile))))
     /\ float64.less (50 * unit_Knot)%float (Speed trackfile))
  /\ (Speed trackfile = (50 * unit_Knot)%float ->
      isValidTrack trackfile = false)
  /\ (Point (LastKnown trackfile) = orb.zero ->
      isValidTrack trackfile = false).
Proof.
  unfold radar.isValidTrack. cbv zeta. split; [ | split ].
  - rewrite andb_true_iff, negb_true_iff, float64_facts.gt_less,
      <- float64_facts.IsZero_zero.
    destruct (spatial.IsZero (Point (LastKnown trackfile)));
      intuition congruence.
  - intros ->. rewrite float64_facts.gt_irrefl. apply andb_false_r.
  - intros ->. reflexivity.
Qed.

(** C2. A trackfile matches a coalition and a category filter exactly
    when it is of that coalition, it is valid, and its aircraft is not in
    the encyclopedia, or is there with the category of the filter, or the
    filter is the any-aircraft wildcard. *)
Theorem isMatch_iff (s : scope) (trackfile : Trackfile)
    (coalition : coalitions.Coalition) (filter : ContactCategory) :
  isMatch s trackfile coalition filter = true <->
    Coalition (Contact trackfile) = coalition
    /\ isValidTrack trackfile = true
    /\ ((GetAircraftData (ACMIName (Contact trackfile))).2 = false
        \/ Category (GetAircraftData (ACMIName (Contact trackfile))).1 = filter
        \/ filter = brevity_Aircraft).
Proof.
  unfold radar.isMatch.
  destruct (Z.eqb_spec (Coalition (Contact trackfile)) coalition) as [Hc | Hc];
    simpl; [ | split; [discriminate | tauto] ].
  destruct (radar.isValidTrack Speed unit_Knot trackfile);
    simpl; [ | split; [discriminate | intros (_ & ? & _); discriminate] ].
  destruct (GetAircraftData (ACMIName (Contact trackfile))) as [data ok].
  cbv zeta. simpl.
  rewrite !orb_true_iff, negb_true_iff, !bool_decide_eq_true. tauto.
Qed.

End Collaborators.

(** A contact on the move at (30, 40) whose speed is exactly fifty knots. *)
Definition at_fifty_knots : Trackfile :=
  mkTrackfile (mkLabels 1 "Eagle 1-1" "F-15C" 2)
    [mkFrame 1000 (orb.mkPoint 30 40) 8000 90].

Lemma isValidTrack_iff_witness :
  radar.isValidTrack (fun _ => (50 * 0.5)%float) 0.5%float at_fifty_knots
  = false.
Proof.
  apply (proj1 (proj2
    (isValidTrack_iff (fun _ => (50 * 0.5)%float) 0.5%float at_fifty_knots))).
  reflexivity.
Defined.

End radar_filters.

(** ** pkg/radar: bullseyes and declination *)

Module radar_bullseye.

Import trackfiles effects radar.

Lemma Bullseye_unset (s : scope) (c : coalitions.Coalition) :
  bullseyes s !! c = None -> Bullseye s c = orb.zero.
Proof. unfold Bullseye. intros ->. reflexivity. Qed.

Lemma ne_diag_zero : float64.ne 0%float 0%float = false.
Proof. reflexivity. Qed.

(** C9. Right after [SetBullseye(p, c)] the bullseye of [c] is [p] and the
    bullseye of every other coalition is what it was. So on a scope where
    [c] has no bullseye yet, setting it to the zero point changes no
    answer of [Bullseye] and logs nothing. *)
Theorem SetBullseye_Bullseye (p : orb.Point) (c : coalitions.Coalition)
    (s : scope) :
  Bullseye (SetBullseye p c s).1 c = p
  /\ (forall c', c' <> c ->
        Bullseye (SetBullseye p c s).1 c' = Bullseye s c')
  /\ (bullseyes s !! c = None ->
        (forall c', Bullseye (SetBullseye orb.zero c s).1 c' = Bullseye s c')
        /\ (SetBullseye orb.zero c s).2 = []).
Proof.
  unfold SetBullseye, Bullseye. simpl. split; [ | split ].
  - rewrite lookup_insert_eq. reflexivity.
  - intros c' Hc. rewrite lookup_insert_ne by congruence. reflexivity.
  - intros Hnone. split.
    + intros c'. destruct (decide (c = c')) as [<- | Hc].
      * rewrite lookup_insert_eq, Hnone. reflexivity.
      * rewrite lookup_insert_ne by exact Hc. reflexivity.
    + rewrite Hnone. reflexivity.
Qed.

Section Collaborators.

Variable Speed : Trackfile -> float.
Variable unit_Knot : float.
Variable bearings_Declination :
  orb.Point -> time.Time -> float * option errors.error.
Variable retention : nat.
Variable centroid : list Trackfile -> orb.Point.

Local Abbreviation handle := (radar.handle Speed unit_Knot retention centroid).
Local Abbreviation loop := (radar.loop Speed unit_Knot retention centroid).
Local Abbreviation Run := (radar.Run Speed unit_Knot retention centroid).
Local Abbreviation Declination := (radar.Declination bearings_Declination).

(** An event other than [SetBullseye] on [c] leaves [c] without a
    bullseye if it had none. *)
Lemma handle_unset (c : coalitions.Coalition) (e : event) (s : scope) :
  (forall p, e <> CallSetBullseye p c) ->
  bullseyes s !! c = None ->
  bullseyes (handle e s).1 !! c = None.
Proof.
  intros He Hs. destruct e as [t | u | | | id | t | p c' | f | f];
    simpl; try exact Hs.
  - unfold handleUpdate.
    destruct (contactDatabase.getByID _ _); exact Hs.
  - unfold handleFaded.
    destruct (contactDatabase.getByID _ _); exact Hs.
  - destruct (decide (c' = c)) as [-> | Hc].
    + destruct (He p). reflexivity.
    + rewrite lookup_insert_ne by exact Hc. exact Hs.
Qed.

Lemma loop_unset (c : coalitions.Coalition) (history : list event) :
  forall (acc : scope * list effect),
  (forall p, CallSetBullseye p c ∉ history) ->
  bullseyes acc.1 !! c = None ->
  bullseyes
    (foldl (fun acc e => let r := handle e acc.1 in (r.1, acc.2 ++ r.2))
       acc history).1 !! c = None.
Proof.
  induction history as [ | e history IH]; intros acc Hh Hacc; simpl.
  - exact Hacc.
  - apply IH.
    + intros p Hin. apply (Hh p). right. exact Hin.
    + simpl. apply handle_unset; [ | exact Hacc ].
      intros p ->. apply (Hh p). left.
Qed.

(** C7. On a scope made by [New] and run over any history in which
    [SetBullseye] was never called for coalition [c], [Bullseye(c)] is
    the zero point; [Bullseye] has no other outcome than a point. *)
Theorem Bullseye_never_set (mandatoryThreatRadius : float)
    (history : list event) (c : coalitions.Coalition) :
  (forall p, CallSetBullseye p c ∉ history) ->
  Bullseye (Run history (New mandatoryThreatRadius)).1 c = orb.zero.
Proof.
  intros Hh. apply Bullseye_unset. unfold radar.Run, radar.loop.
  apply loop_unset; [ exact Hh | ]. simpl. apply lookup_empty.
Qed.

(** [Declination(p)] hands on the angle [bearings.Declination] returned
    for [p] at the mission time, and logs the error when there is one. *)
Lemma Declination_passes_model_value (s : scope) (p : orb.Point) :
  (Declination s p).1 = (bearings_Declination p (missionTime s)).1
  /\ (Declination s p).2 =
       match (bearings_Declination p (missionTime s)).2 with
       | Some e => [Log Error (Some e) "failed to get declination"]
       | None => []
       end.
Proof.
  unfold radar.Declination.
  destruct (bearings_Declination p (missionTime s)) as [declination err].
  split; reflexivity.
Qed.

End Collaborators.

Definition history_blue_only : list event :=
  [CallSetMissionTime 1000; CallSetBullseye (orb.mkPoint 30 40) 2; GcTick;
   RecenterTick].

Lemma Bullseye_never_set_witness :
  Bullseye
    (radar.Run (fun _ => 0%float) 1%float 10%nat (fun _ => orb.zero)
       history_blue_only (New 0%float)).1 1 = orb.zero.
Proof.
  apply Bullseye_never_set.
  intros p Hin. unfold history_blue_only in Hin.
  repeat (apply elem_of_cons in Hin as [Heq | Hin]; [ discriminate Heq | ]).
  apply elem_of_nil in Hin. exact Hin.
Defined.

Lemma SetBullseye_Bullseye_witness :
  Bullseye (SetBullseye orb.zero 1 (New 0%float)).1 2 = Bullseye (New 0%float) 2
  /\ Bullseye (SetBullseye (orb.mkPoint 30 40) 1 (New 0%float)).1 2
     = Bullseye (New 0%float) 2.
Proof.
  split.
  - apply (SetBullseye_Bullseye orb.zero 1 (New 0%float)). reflexivity.
  - apply (SetBullseye_Bullseye (orb.mkPoint 30 40) 1 (New 0%float)). lia.
Defined.

End radar_bullseye.

(** ** pkg/radar: updates and garbage collection *)

Module radar_contacts.

Import trackfiles effects radar.

(** The most recent frame is not at the zero instant and is older than one
    minute before the mission time. *)
Definition agedOut (missionTime : time.Time) (trackfile : Trackfile) : bool :=
  negb (Time (LastKnown trackfile) =? 0)
  && (Time (LastKnown trackfile) <? missionTime - 60 * 1000000000).

(** Every trackfile sits under its own unit ID. *)
Definition keyed (d : gmap N Trackfile) : Prop :=
  forall id trackfile, d !! id = Some trackfile -> ID (Contact trackfile) = id.

Lemma collect_agedOut (missionTime : time.Time)
    (acc : gmap N Trackfile * list effect) (trackfile : Trackfile) :
  collect missionTime acc trackfile =
    if agedOut missionTime trackfile
    then (base.delete (ID (Contact trackfile)) acc.1,
          acc.2 ++ [Log Info None "removed aged out trackfile"])
    else acc.
Proof. reflexivity. Qed.

(** After the loop, an ID is gone if some visited trackfile of that ID was
    aged out, and is as before otherwise. *)
Lemma foldl_collect_lookup (missionTime : time.Time) (l : list Trackfile) :
  forall (acc : gmap N Trackfile * list effect) (id : N),
  (foldl (collect missionTime) acc l).1 !! id =
    if existsb
         (fun trackfile =>
            agedOut missionTime trackfile
            && (ID (Contact trackfile) =? id)%N) l
    then None
    else acc.1 !! id.
Proof.
  induction l as [ | trackfile l IH]; intros acc id; simpl.
  - reflexivity.
  - rewrite IH, collect_agedOut.
    destruct (existsb _ l); [ rewrite orb_true_r; reflexivity | ].
    rewrite orb_false_r.
    destruct (agedOut missionTime trackfile); simpl; [ | reflexivity ].
    destruct (N.eqb_spec (ID (Contact trackfile)) id) as [-> | Hne].
    + apply lookup_delete_eq.
    + apply lookup_delete_ne. exact Hne.
Qed.

(** The loop calls no callback: whatever it adds to the effects is a log
    line. *)
Lemma foldl_collect_invocations (missionTime : time.Time) (l : list Trackfile) :
  forall (acc : gmap N Trackfile * list effect),
  invocations (foldl (collect missionTime) acc l).2 = invocations acc.2.
Proof.
  induction l as [ | trackfile l IH]; intros acc; simpl.
  - reflexivity.
  - rewrite IH, collect_agedOut.
    destruct (agedOut missionTime trackfile); simpl; [ | reflexivity ].
    unfold invocations. rewrite List.filter_app. simpl. apply app_nil_r.
Qed.

Lemma elem_of_values (d : gmap N Trackfile) (trackfile : Trackfile) :
  trackfile ∈ contactDatabase.values d <->
  exists id, d !! id = Some trackfile.
Proof.
  unfold contactDatabase.values. rewrite list_elem_of_fmap. split.
  - intros [[id tf] [-> Hin]]. exists id.
    apply elem_of_map_to_list in Hin. exact Hin.
  - intros [id Hid]. exists (id, trackfile). split; [ reflexivity | ].
    apply elem_of_map_to_list. exact Hid.
Qed.

(** The deletions of a garbage collection: on a database where every
    trackfile sits under its own ID, exactly the aged out trackfiles are
    gone afterwards and every other entry is as before. *)
Lemma handleGarbageCollection_contacts (s : scope) (id : N) :
  keyed (contacts s) ->
  contacts (handleGarbageCollection s).1 !! id =
    match contacts s !! id with
    | Some trackfile =>
        if agedOut (missionTime s) trackfile then None else Some trackfile
    | None => None
    end.
Proof.
  intros Hkeyed. unfold handleGarbageCollection. simpl.
  rewrite foldl_collect_lookup. simpl.
  destruct (existsb _ _) eqn:Hex.
  - apply existsb_exists in Hex as (trackfile & Hin & Hb).
    apply andb_true_iff in Hb as [Hold Hid]. apply N.eqb_eq in Hid.
    apply list_elem_of_In, elem_of_values in Hin as [id' Hid'].
    pose proof (Hkeyed _ _ Hid') as Hk.
    assert (id' = id) as -> by congruence.
    rewrite Hid', Hold. reflexivity.
  - destruct (contacts s !! id) as [trackfile | ] eqn:Hid; [ | reflexivity ].
    destruct (agedOut (missionTime s) trackfile) eqn:Hold; [ | reflexivity ].
    exfalso. apply not_true_iff_false in Hex. apply Hex.
    apply existsb_exists. exists trackfile. split.
    + apply list_elem_of_In, elem_of_values. exists id. exact Hid.
    + rewrite Hold. simpl. apply N.eqb_eq. apply (Hkeyed _ _ Hid).
Qed.

(** A garbage collection calls no callback, whatever is registered and
    however many trackfiles it removes. *)
Lemma handleGarbageCollection_invocations (s : scope) :
  invocations (handleGarbageCollection s).2 = [].
Proof.
  unfold handleGarbageCollection. simpl.
  rewrite foldl_collect_invocations. reflexivity.
Qed.

Section Retention.

Variable retention : nat.

Local Abbreviation handleUpdate := (radar.handleUpdate retention).

(** C5. An update for a unit ID that has a trackfile puts the frame in
    front of that trackfile's frames (trimmed to the retention), leaves
    its labels, and changes no other entry and no key of the database;
    an update for an ID without a trackfile inserts a new trackfile made
    from the labels of the update, and changes no other entry. *)
Theorem handleUpdate_contacts (update : sim.Updated) (s : scope) :
  let id := ID (sim.Labels update) in
  let d := contacts (handleUpdate update s).1 in
  (forall trackfile, contacts s !! id = Some trackfile ->
     (exists updated,
        d !! id = Some updated
        /\ Contact updated = Contact trackfile
        /\ Track updated =
             take retention (sim.Frame update :: Track trackfile)
        /\ ((0 < retention)%nat -> LastKnown updated = sim.Frame update))
     /\ dom d = dom (contacts s))
  /\ (contacts s !! id = None ->
       d !! id = Some (NewTrackfile (sim.Labels update))
       /\ dom d = {[id]} ∪ dom (contacts s))
  /\ (forall id', id' <> id -> d !! id' = contacts s !! id').
Proof.
  intros id d. subst d. unfold radar.handleUpdate, contactDatabase.getByID.
  fold id. split; [ | split ].
  - intros trackfile Hid. rewrite Hid. simpl. split.
    + exists (Update retention trackfile (sim.Frame update)).
      rewrite lookup_insert_eq. repeat split.
      intros Hr. unfold LastKnown, Update. simpl.
      destruct retention; [ lia | reflexivity ].
    + apply dom_insert_lookup_L. eauto.
  - intros Hid. rewrite Hid. simpl. unfold contactDatabase.set. simpl.
    fold id. rewrite lookup_insert_eq, dom_insert_L. split; reflexivity.
  - intros id' Hne.
    destruct (contacts s !! id) as [trackfile | ] eqn:Hid; simpl.
    + apply lookup_insert_ne. congruence.
    + unfold contactDatabase.set. simpl. apply lookup_insert_ne.
      fold id. congruence.
Qed.

(** Updates keep every trackfile under its own unit ID. *)
Lemma handleUpdate_keyed (update : sim.Updated) (s : scope) :
  keyed (contacts s) -> keyed (contacts (handleUpdate update s).1).
Proof.
  intros Hkeyed id' trackfile'.
  unfold radar.handleUpdate, contactDatabase.getByID.
  destruct (contacts s !! ID (sim.Labels update)) as [trackfile | ] eqn:Hid;
    simpl; unfold contactDatabase.set; simpl;
    (destruct (decide (ID (sim.Labels update) = id')) as [<- | Hne];
     [ rewrite lookup_insert_eq; intros [= <-]; simpl
     | rewrite lookup_insert_ne by exact Hne; apply Hkeyed ]).
  - apply (Hkeyed _ _ Hid).
  - reflexivity.
Qed.

End Retention.

(** A garbage collection keeps every trackfile under its own unit ID. *)
Lemma handleGarbageCollection_keyed (s : scope) :
  keyed (contacts s) -> keyed (contacts (handleGarbageCollection s).1).
Proof.
  intros Hkeyed id trackfile.
  rewrite handleGarbageCollection_contacts by exact Hkeyed.
  destruct (contacts s !! id) as [trackfile' | ] eqn:Hid; [ | discriminate ].
  destruct (agedOut (missionTime s) trackfile'); [ discriminate | ].
  intros [= <-]. apply (Hkeyed _ _ Hid).
Qed.

Section Collaborators.

Variable Speed : Trackfile -> float.
Variable unit_Knot : float.
Variable retention : nat.
Variable centroid : list Trackfile -> orb.Point.

Local Abbreviation handle := (radar.handle Speed unit_Knot retention centroid).
Local Abbreviation Run := (radar.Run Speed unit_Knot retention centroid).

Lemma handle_keyed (e : event) (s : scope) :
  keyed (contacts s) -> keyed (contacts (handle e s).1).
Proof.
  intros Hkeyed. destruct e as [t | u | | | id | t | p c | f | f];
    simpl; try exact Hkeyed.
  - intros id trackfile. unfold contactDatabase.reset.
    rewrite lookup_empty. discriminate.
  - apply handleUpdate_keyed. exact Hkeyed.
  - apply handleGarbageCollection_keyed. exact Hkeyed.
  - unfold handleFaded, contactDatabase.getByID.
    destruct (contacts s !! id); simpl; [ | exact Hkeyed ].
    intros id' trackfile' Hid'. unfold contactDatabase.delete in Hid'.
    apply lookup_delete_Some in Hid' as [_ Hid']. apply (Hkeyed _ _ Hid').
Qed.

Lemma foldl_handle_keyed (history : list event) :
  forall acc : scope * list effect,
  keyed (contacts acc.1) ->
  keyed
    (contacts
       (foldl (fun acc e => let r := handle e acc.1 in (r.1, acc.2 ++ r.2))
          acc history).1).
Proof.
  induction history as [ | e history IH]; intros acc Hacc; simpl.
  - exact Hacc.
  - apply IH. simpl. apply handle_keyed. exact Hacc.
Qed.

(** On every scope [Run] reaches from [New], each trackfile of the database
    sits under its own unit ID, so the deletions of a garbage collection
    are the ones [handleGarbageCollection_contacts] gives. *)
Lemma Run_keyed (mandatoryThreatRadius : float) (history : list event) :
  keyed (contacts (Run history (New mandatoryThreatRadius)).1).
Proof.
  unfold radar.Run, radar.loop. apply foldl_handle_keyed. simpl.
  intros id trackfile. unfold contactDatabase.newContactDatabase.
  rewrite lookup_empty. discriminate.
Qed.

End Collaborators.

(** The scenario of a trackfile that ages out. A removal callback is
    registered; unit 2 is sighted at mission time [T] (the first update makes
    the trackfile, the second records its frame); the mission time then
    moves to [T + 120 s]. *)
Definition T : time.Time := 1000 * time.Second.

Definition update2 (t : time.Time) (lon : float) : sim.Updated :=
  sim.mkUpdated (mkLabels 2 "Eagle 1-1" "F-15C" 2)
    (mkFrame t (orb.mkPoint lon 40) 8000 90).

Definition history_aged_out : list event :=
  [CallSetRemovedCallback "onRemoved";
   CallSetMissionTime T;
   Updated (update2 T 30);
   Updated (update2 T 30);
   CallSetMissionTime (T + 120 * time.Second)].

Definition trackfile2 : Trackfile :=
  mkTrackfile (mkLabels 2 "Eagle 1-1" "F-15C" 2)
    [mkFrame T (orb.mkPoint 30 40) 8000 90].

(** The scope that scenario leaves. *)
Definition scope_aged_out : scope :=
  mkScope (T + 120 * time.Second) ∅ {[ 2%N := trackfile2 ]}
    None (Some "onRemoved") orb.zero 0.

(** C3, where the code departs from it. The scenario leaves a database
    holding one aged out trackfile, with a removal callback registered. The
    garbage collection that follows deletes the trackfile and logs the
    removal, but calls no callback. *)
Theorem handleGarbageCollection_skips_removal_callback :
  (radar.Run (fun _ => 0%float) 0.5%float 10 (fun _ => orb.zero)
     history_aged_out (New 0)).1 = scope_aged_out
  /\ contacts scope_aged_out !! 2%N = Some trackfile2
  /\ agedOut (missionTime scope_aged_out) trackfile2 = true
  /\ removalCallback scope_aged_out = Some "onRemoved"
  /\ contacts (handleGarbageCollection scope_aged_out).1 !! 2%N = None
  /\ (handleGarbageCollection scope_aged_out).2
       = [Log Info None "removed aged out trackfile"]
  /\ invocations (handleGarbageCollection scope_aged_out).2 = [].
Proof. vm_compute. repeat split; reflexivity. Qed.

Lemma handleUpdate_contacts_witness :
  let update := update2 (T + time.Second) 30.5 in
  let d := contacts (radar.handleUpdate 10 update scope_aged_out).1 in
  (exists updated,
     d !! 2%N = Some updated
     /\ Contact updated = Contact trackfile2
     /\ Track updated = take 10 (sim.Frame update :: Track trackfile2)
     /\ ((0 < 10)%nat -> LastKnown updated = sim.Frame update))
  /\ dom d = dom (contacts scope_aged_out)
  /\ d !! 7%N = contacts scope_aged_out !! 7%N.
Proof.
  intros update d.
  destruct (handleUpdate_contacts 10 update scope_aged_out)
    as (Hexisting & _ & Hother).
  destruct (Hexisting trackfile2 eq_refl) as [Hupdated Hdom].
  split; [ exact Hupdated | split; [ exact Hdom | ] ].
  apply Hother. discriminate.
Defined.

End radar_contacts.

(** ** pkg/simpleradio: the tuned frequencies *)

Module simpleradio_frequencies.

Import simpleradio.

Section Client.

Variable Modulation : Type.
Variable unit_Hertz : float.

Local Abbreviation Frequencies := (simpleradio.Frequencies Modulation unit_Hertz).

(** The entry [Frequencies] makes of one radio. *)
Definition entry (radio : Radio Modulation) : RadioFrequency Modulation :=
  mkRadioFrequency Modulation (Radio_Frequency _ radio * unit_Hertz)%float
    (Radio_Modulation _ radio).

Lemma foldl_append (radios : list (Radio Modulation)) :
  forall frequencies : slice.t (RadioFrequency Modulation),
  foldl (fun frequencies radio => slice.append frequencies (entry radio))
    frequencies radios
  = match radios with
    | [] => frequencies
    | _ => slice.mk (slice.range frequencies ++ map entry radios)
    end.
Proof.
  induction radios as [ | radio radios IH]; intros frequencies; simpl.
  - reflexivity.
  - rewrite IH. destruct radios as [ | radio' radios]; simpl.
    + reflexivity.
    + rewrite <- app_assoc. reflexivity.
Qed.

(** C10. [Frequencies] returns a slice that is not nil and holds, for each
    radio of the data client's radio list and in the order of that list, the
    radio's frequency times one hertz with the radio's modulation; without
    radios the slice is empty and still not nil. *)
Theorem Frequencies_entries (c : client Modulation) :
  let radios := slice.range (Radios _ (ClientInfo_RadioInfo _ (dataClient_Info _ c))) in
  Frequencies c = slice.mk (map entry radios)
  /\ Frequencies c <> slice.nil
  /\ slice.len (Frequencies c) = length radios
  /\ (forall i, slice.range (Frequencies c) !! i = entry <$> radios !! i)
  /\ (radios = [] -> Frequencies c = slice.mk []).
Proof.
  intros radios.
  assert (Frequencies c = slice.mk (map entry radios)) as Heq.
  { unfold simpleradio.Frequencies. fold radios.
    change (foldl _ slice.make0 radios)
      with (foldl (fun frequencies radio => slice.append frequencies (entry radio))
              (@slice.make0 (RadioFrequency Modulation)) radios).
    rewrite foldl_append. destruct radios; reflexivity. }
  rewrite Heq. split; [ reflexivity | split; [ discriminate | split; [ | split ] ] ].
  - unfold slice.len. simpl. apply length_map.
  - intros i. simpl. apply list_lookup_fmap.
  - intros ->. reflexivity.
Qed.

End Client.

Definition untuned : client Z :=
  mkClient Z (mkClientInfo Z "SkyEye" (mkRadioInfo Z slice.nil)).

Lemma Frequencies_entries_witness :
  simpleradio.Frequencies Z 1%float untuned = slice.mk [].
Proof.
  apply (Frequencies_entries Z 1%float untuned). reflexivity.
Defined.

End simpleradio_frequencies.

(** ** pkg/simpleradio: how [Run] ends *)

Module simpleradio_run.

Import effects simpleradio.

(** A turn on which [Run] stays in its loop. *)
Definition quiet (sel : selected) : Prop := (turn sel).2 = None.

Lemma Run_quiet (choices rest : list selected) :
  Forall quiet choices -> (Run (choices ++ rest)).2 = (Run rest).2.
Proof.
  induction 1 as [ | sel choices Hsel _ IH]; simpl.
  - reflexivity.
  - unfold quiet in Hsel. destruct (turn sel) as [out [err | ]].
    + discriminate Hsel.
    + simpl. exact IH.
Qed.

Lemma Since_Minute (now lastPing : time.Time) :
  (1 * time.Minute <? time.Since now lastPing) = true
  <-> 60 * 1000000000 < now - lastPing.
Proof.
  rewrite Z.ltb_lt.
  unfold time.Since, time.Sub, time.minDuration, time.maxDuration,
    time.Minute, time.Second, time.Nanosecond.
  lia.
Qed.

Definition pingError : errors.error :=
  errors.New "stopped receiving pings from SRS data client".

(** C4, as the code has it. After any turns that left [Run] in its loop, a
    tick at which the last ping is more than sixty seconds old makes [Run]
    return the stopped-receiving-pings error, and a tick at which it is
    sixty seconds old or less leaves [Run] in its loop. *)
Theorem Run_liveness (choices rest : list selected)
    (now lastPing : time.Time) :
  Forall quiet choices ->
  (60 * 1000000000 < now - lastPing ->
     (Run (choices ++ TickerC now lastPing :: rest)).2 = Some pingError)
  /\ (now - lastPing <= 60 * 1000000000 ->
     quiet (TickerC now lastPing)
     /\ (Run (choices ++ TickerC now lastPing :: rest)).2
        = (Run (choices ++ rest)).2).
Proof.
  intros Hquiet. split; intros Hage.
  - rewrite Run_quiet by exact Hquiet. simpl.
    apply Since_Minute in Hage. rewrite Hage. reflexivity.
  - assert (quiet (TickerC now lastPing)) as Hq.
    { unfold quiet. simpl.
      destruct (1 * time.Minute <? time.Since now lastPing) eqn:Hlt;
        [ apply Since_Minute in Hlt; lia | reflexivity ]. }
    split; [ exact Hq | ].
    rewrite !Run_quiet by exact Hquiet.
    apply (Run_quiet [TickerC now lastPing] rest).
    constructor; [ exact Hq | constructor ].
Qed.

(** C4, as stated, fails at the boundary: at a tick exactly sixty seconds
    after the last ping, [Run] does not return. *)
Lemma Run_sixty_seconds_no_error :
  time.Since (100 * time.Second + 60 * time.Second) (100 * time.Second)
  = 60 * time.Second
  /\ Run [TickerC (100 * time.Second + 60 * time.Second) (100 * time.Second)]
     = ([], None).
Proof. split; reflexivity. Qed.

Lemma Run_liveness_witness :
  (Run ([TickerC 5000000000 0; TickerC 10000000000 5000000000]
        ++ TickerC 70000000000 5000000000 :: [])).2 = Some pingError.
Proof.
  apply (Run_liveness [TickerC 5000000000 0; TickerC 10000000000 5000000000] []
           70000000000 5000000000).
  - repeat constructor.
  - lia.
Defined.

(** C8, as the code has it. [Run] ends in one of three ways. After any
    turns that left it in its loop, it returns the context's error wrapped
    under one prefix when the context is done, the error a subtask sent
    wrapped under another prefix, and, when its own tick finds the last
    ping more than sixty seconds old, the stopped-receiving-pings error,
    which wraps nothing. The three returned errors differ from each other,
    and so do their messages, whatever errors the first two wrap; the first
    two unwrap to their causes. *)
Theorem Run_three_termination_causes
    (choices choices' choices'' rest rest' rest'' : list selected)
    (ctxErr subErr : errors.error) (now lastPing : time.Time) :
  Forall quiet choices -> Forall quiet choices' -> Forall quiet choices'' ->
  60 * 1000000000 < now - lastPing ->
  let cancelled := (Run (choices ++ CtxDone ctxErr :: rest)).2 in
  let failed := (Run (choices' ++ ErrorChan subErr :: rest')).2 in
  let lost := (Run (choices'' ++ TickerC now lastPing :: rest'')).2 in
  (cancelled
     = Some (errors.Errorf_w "stopping client due to context cancelation: " ctxErr)
   /\ failed = Some (errors.Errorf_w "client error: " subErr)
   /\ lost = Some (errors.New "stopped receiving pings from SRS data client"))
  /\ (cancelled ≫= errors.Unwrap = Some ctxErr
      /\ failed ≫= errors.Unwrap = Some subErr
      /\ lost ≫= errors.Unwrap = None)
  /\ (cancelled <> failed /\ cancelled <> lost /\ failed <> lost)
  /\ (errors.Error <$> cancelled <> errors.Error <$> failed
      /\ errors.Error <$> cancelled <> errors.Error <$> lost
      /\ errors.Error <$> failed <> errors.Error <$> lost).
Proof.
  intros Hq Hq' Hq'' Hlate cancelled failed lost. subst cancelled failed lost.
  rewrite !Run_quiet by assumption. simpl.
  apply Since_Minute in Hlate. rewrite Hlate. simpl.
  repeat split; discriminate.
Qed.

(** C8, as stated, fails for the liveness error: at a tick sixty-five
    seconds after the last ping [Run] returns an error that wraps no other
    error and is not of the form subtask errors come back in. *)
Lemma Run_liveness_error_wraps_nothing :
  (Run [TickerC 65000000000 0]).2
  = Some (errors.New "stopped receiving pings from SRS data client")
  /\ (Run [TickerC 65000000000 0]).2 ≫= errors.Unwrap = None
  /\ (forall err,
        (Run [TickerC 65000000000 0]).2
        <> Some (errors.Errorf_w "client error: " err)).
Proof. split; [ reflexivity | split; [ reflexivity | discriminate ] ]. Qed.

Lemma Run_three_termination_causes_witness :
  (Run ([TickerC 5000000000 0] ++ CtxDone (errors.New "context canceled") :: [])).2
  <> (Run ([] ++ ErrorChan (errors.New "context canceled") :: [])).2.
Proof.
  apply (Run_three_termination_causes [TickerC 5000000000 0] [] [] [] [] []
           (errors.New "context canceled") (errors.New "context canceled")
           65000000000 0).
  - repeat constructor.
  - constructor.
  - constructor.
  - lia.
Defined.

End simpleradio_run.

(** ** pkg/radar: what a history leaves in the control-plane fields *)

Module radar_history.

Import trackfiles effects radar.

(** The point of the last [SetBullseye] for coalition [c] in a history. *)
Fixpoint lastBullseye (c : coalitions.Coalition) (history : list event)
    : option orb.Point :=
  match history with
  | [] => None
  | e :: rest =>
      match lastBullseye c rest with
      | Some p => Some p
      | None =>
          match e with
          | CallSetBullseye p c' => if decide (c' = c) then Some p else None
          | _ => None
          end
      end
  end.

(** The time of the last [SetMissionTime] in a history. *)
Fixpoint lastMissionTime (history : list event) : option time.Time :=
  match history with
  | [] => None
  | e :: rest =>
      match lastMissionTime rest with
      | Some t => Some t
      | None =>
          match e with
          | CallSetMissionTime t => Some t
          | _ => None
          end
      end
  end.

Section Collaborators.

Variable Speed : Trackfile -> float.
Variable unit_Knot : float.
Variable retention : nat.
Variable centroid : list Trackfile -> orb.Point.

Local Abbreviation handle := (radar.handle Speed unit_Knot retention centroid).
Local Abbreviation Run := (radar.Run Speed unit_Knot retention centroid).

Lemma handle_bullseyes (e : event) (s : scope) :
  bullseyes (handle e s).1 =
    match e with
    | CallSetBullseye p c => <[c := p]> (bullseyes s)
    | _ => bullseyes s
    end.
Proof.
  destruct e as [t | u | | | id | t | p c | f | f]; simpl; try reflexivity.
  - unfold handleUpdate. destruct (contactDatabase.getByID _ _); reflexivity.
  - unfold handleFaded. destruct (contactDatabase.getByID _ _); reflexivity.
Qed.

Lemma handle_missionTime (e : event) (s : scope) :
  missionTime (handle e s).1 =
    match e with
    | CallSetMissionTime t => t
    | _ => missionTime s
    end.
Proof.
  destruct e as [t | u | | | id | t | p c | f | f]; simpl; try reflexivity.
  - unfold handleUpdate. destruct (contactDatabase.getByID _ _); reflexivity.
  - unfold handleFaded. destruct (contactDatabase.getByID _ _); reflexivity.
Qed.

Lemma foldl_handle_bullseyes (c : coalitions.Coalition) (history : list event) :
  forall acc : scope * list effect,
  bullseyes
    (foldl (fun acc e => let r := handle e acc.1 in (r.1, acc.2 ++ r.2))
       acc history).1 !! c
  = match lastBullseye c history with
    | Some p => Some p
    | None => bullseyes acc.1 !! c
    end.
Proof.
  induction history as [ | e history IH]; intros acc; simpl.
  - reflexivity.
  - rewrite IH. destruct (lastBullseye c history) as [p | ]; [ reflexivity | ].
    simpl. rewrite handle_bullseyes.
    destruct e as [t | u | | | id | t | p c' | f | f]; try reflexivity.
    destruct (decide (c' = c)) as [-> | Hne].
    + apply lookup_insert_eq.
    + apply lookup_insert_ne. exact Hne.
Qed.

Lemma foldl_handle_missionTime (history : list event) :
  forall acc : scope * list effect,
  missionTime
    (foldl (fun acc e => let r := handle e acc.1 in (r.1, acc.2 ++ r.2))
       acc history).1
  = default (missionTime acc.1) (lastMissionTime history).
Proof.
  induction history as [ | e history IH]; intros acc; simpl.
  - reflexivity.
  - rewrite IH. destruct (lastMissionTime history) as [t | ]; [ reflexivity | ].
    simpl. rewrite handle_missionTime.
    destruct e; reflexivity.
Qed.

(** X1. Whatever a scope made by [New] has gone through, mission starts,
    updates, fades and garbage collections included, [Bullseye(c)] is the
    point of the last [SetBullseye] for [c], and the zero point if there was
    none. *)
Theorem Bullseye_last_set (mandatoryThreatRadius : float)
    (history : list event) (c : coalitions.Coalition) :
  Bullseye (Run history (New mandatoryThreatRadius)).1 c
  = default orb.zero (lastBullseye c history).
Proof.
  unfold Bullseye, radar.Run, radar.loop. rewrite foldl_handle_bullseyes.
  destruct (lastBullseye c history); reflexivity.
Qed.

(** X2. The mission time of a scope is the time of the last
    [SetMissionTime], and the zero instant before the first one. A mission
    start does not move it: the timestamp of a [Started] event is logged
    only. *)
Theorem missionTime_last_set (mandatoryThreatRadius : float)
    (history : list event) :
  missionTime (Run history (New mandatoryThreatRadius)).1
  = default time.zero (lastMissionTime history)
  /\ forall t,
       missionTime (Run (history ++ [Started t]) (New mandatoryThreatRadius)).1
       = missionTime (Run history (New mandatoryThreatRadius)).1.
Proof.
  unfold radar.Run, radar.loop. split.
  - rewrite foldl_handle_missionTime. reflexivity.
  - intros t. rewrite foldl_app. reflexivity.
Qed.

End Collaborators.

End radar_history.

(** ** float64: NaN *)

Module float64_nan.

Definition is_nan (x : float) : Prop := Prim2SF x = S754_nan.

Lemma SFcompare_diag (x : spec_float) :
  x <> S754_nan -> SFcompare x x = Some Eq.
Proof.
  destruct x as [b | b | | b m e]; simpl; intros Hx; try congruence.
  - destruct b; reflexivity.
  - destruct b; rewrite Z.compare_refl, Pos.compare_cont_refl; reflexivity.
Qed.

Lemma SFcompare_nan_l (y : spec_float) : SFcompare S754_nan y = None.
Proof. reflexivity. Qed.

Lemma SFcompare_nan_r (x : spec_float) : SFcompare x S754_nan = None.
Proof. destruct x; reflexivity. Qed.

(** [x == x] holds for every float but NaN. *)
Lemma eqb_diag (x : float) : ~ is_nan x -> PrimFloat.eqb x x = true.
Proof.
  unfold is_nan. intros Hx. rewrite FloatAxioms.eqb_spec. unfold SFeqb.
  rewrite SFcompare_diag by exact Hx. reflexivity.
Qed.

(** [x != y] holds as soon as one side is NaN. *)
Lemma ne_nan_r (x y : float) : is_nan y -> float64.ne x y = true.
Proof.
  unfold is_nan, float64.ne. intros Hy.
  rewrite FloatAxioms.eqb_spec. unfold SFeqb.
  rewrite Hy, SFcompare_nan_r. reflexivity.
Qed.

(** [x > y] fails as soon as one side is NaN. *)
Lemma gt_nan_l (x y : float) : is_nan x -> float64.gt x y = false.
Proof.
  unfold is_nan, float64.gt. intros Hx.
  rewrite FloatAxioms.ltb_spec. unfold SFltb.
  rewrite Hx, SFcompare_nan_r. reflexivity.
Qed.

Lemma gt_nan_r (x y : float) : is_nan y -> float64.gt x y = false.
Proof.
  unfold is_nan, float64.gt. intros Hy.
  rewrite FloatAxioms.ltb_spec. unfold SFltb.
  rewrite Hy, SFcompare_nan_l. reflexivity.
Qed.

End float64_nan.

(** ** pkg/radar: setting a bullseye again *)

Module radar_bullseye_again.

Import trackfiles effects radar float64_nan.

Lemma scope_eq (s s' : scope) :
  missionTime s = missionTime s' -> bullseyes s = bullseyes s' ->
  contacts s = contacts s' -> fadedCallback s = fadedCallback s' ->
  removalCallback s = removalCallback s' -> center s = center s' ->
  mandatoryThreatRadius s = mandatoryThreatRadius s' -> s = s'.
Proof. destruct s, s'. simpl. intros. congruence. Qed.

(** X3. [SetBullseye] logs "updating bullseye" unless both coordinates
    compare equal to those of the current bullseye. Setting the same point a
    second time is silent when neither coordinate is NaN, and a point with a
    NaN coordinate is logged every time it is set. *)
Theorem SetBullseye_log (p : orb.Point) (c : coalitions.Coalition) (s : scope) :
  ((SetBullseye p c s).2 = [] <->
     PrimFloat.eqb (orb.Lon (Bullseye s c)) (orb.Lon p) = true
     /\ PrimFloat.eqb (orb.Lat (Bullseye s c)) (orb.Lat p) = true)
  /\ (~ is_nan (orb.Lon p) -> ~ is_nan (orb.Lat p) ->
      (SetBullseye p c (SetBullseye p c s).1).2 = [])
  /\ (is_nan (orb.Lon p) \/ is_nan (orb.Lat p) ->
      (SetBullseye p c s).2 = [Log Info None "updating bullseye"]).
Proof.
  split; [ | split ].
  - unfold SetBullseye, float64.ne. simpl.
    destruct (PrimFloat.eqb (orb.Lon (Bullseye s c)) (orb.Lon p));
      destruct (PrimFloat.eqb (orb.Lat (Bullseye s c)) (orb.Lat p));
      simpl; split; intros H; try discriminate H; try reflexivity;
      try tauto; destruct H; discriminate.
  - intros Hlon Hlat.
    assert (Bullseye (SetBullseye p c s).1 c = p) as Hread.
    { unfold SetBullseye, Bullseye. simpl. rewrite lookup_insert_eq.
      reflexivity. }
    set (s1 := (SetBullseye p c s).1) in *.
    unfold SetBullseye. cbv zeta. rewrite Hread.
    unfold float64.ne. rewrite !eqb_diag by assumption. reflexivity.
  - intros Hnan. unfold SetBullseye. simpl. destruct Hnan as [Hnan | Hnan].
    + rewrite (ne_nan_r _ _ Hnan). reflexivity.
    + rewrite (ne_nan_r _ _ Hnan), orb_true_r. reflexivity.
Qed.

(** X4. Of two [SetBullseye] calls for one coalition only the second shows
    in the scope; two calls for different coalitions leave the same scope in
    either order. *)
Theorem SetBullseye_twice (p q : orb.Point) (c c' : coalitions.Coalition)
    (s : scope) :
  (SetBullseye q c (SetBullseye p c s).1).1 = (SetBullseye q c s).1
  /\ (c <> c' ->
      (SetBullseye q c' (SetBullseye p c s).1).1
      = (SetBullseye p c (SetBullseye q c' s).1).1).
Proof.
  split.
  - apply scope_eq; try reflexivity. simpl. apply insert_insert_eq.
  - intros Hne. apply scope_eq; try reflexivity. simpl.
    apply insert_insert_ne. congruence.
Qed.

Lemma SetBullseye_log_witness :
  (SetBullseye (orb.mkPoint 30 40) 2
     (SetBullseye (orb.mkPoint 30 40) 2 (New 0)).1).2 = []
  /\ (SetBullseye (orb.mkPoint nan 40) 2
        (SetBullseye (orb.mkPoint nan 40) 2 (New 0)).1).2
     = [Log Info None "updating bullseye"].
Proof.
  split.
  - apply (SetBullseye_log (orb.mkPoint 30 40) 2 (New 0)); discriminate.
  - apply (SetBullseye_log (orb.mkPoint nan 40) 2
             (SetBullseye (orb.mkPoint nan 40) 2 (New 0)).1).
    left. reflexivity.
Defined.

Lemma SetBullseye_twice_witness :
  (SetBullseye (orb.mkPoint 1 2) 1 (SetBullseye (orb.mkPoint 30 40) 2 (New 0)).1).1
  = (SetBullseye (orb.mkPoint 30 40) 2 (SetBullseye (orb.mkPoint 1 2) 1 (New 0)).1).1.
Proof.
  apply (SetBullseye_twice (orb.mkPoint 30 40) (orb.mkPoint 1 2) 2 1 (New 0)).
  discriminate.
Defined.

End radar_bullseye_again.

(** ** pkg/radar: what a garbage collection removes, and how often *)

Module radar_gc.

Import trackfiles effects radar radar_contacts.

(** The line a garbage collection logs for each trackfile it removes. *)
Definition removedLine : effect := Log Info None "removed aged out trackfile".

Lemma agedOut_iff (missionTime : time.Time) (trackfile : Trackfile) :
  agedOut missionTime trackfile = true <->
  Time (LastKnown trackfile) <> 0
  /\ Time (LastKnown trackfile) < missionTime - 60 * 1000000000.
Proof.
  unfold agedOut.
  rewrite andb_true_iff, negb_true_iff, Z.eqb_neq, Z.ltb_lt. reflexivity.
Qed.

Lemma keyed_singleton (trackfile : Trackfile) :
  keyed {[ ID (Contact trackfile) := trackfile ]}.
Proof.
  intros id trackfile' [<- <-]%lookup_singleton_Some. reflexivity.
Qed.

(** The loop logs one line for each aged out trackfile it visits. *)
Lemma foldl_collect_effects (missionTime : time.Time) (l : list Trackfile) :
  forall acc : gmap N Trackfile * list effect,
  (foldl (collect missionTime) acc l).2 =
    acc.2 ++ replicate (length (List.filter (agedOut missionTime) l)) removedLine.
Proof.
  induction l as [ | trackfile l IH]; intros acc; simpl.
  - symmetry. apply app_nil_r.
  - rewrite IH, collect_agedOut.
    destruct (agedOut missionTime trackfile); simpl; [ | reflexivity ].
    rewrite <- app_assoc. reflexivity.
Qed.

(** Each deletion of the loop takes one entry away, when the visited
    trackfiles have different IDs and all sit in the database. *)
Lemma foldl_collect_size (missionTime : time.Time) (l : list Trackfile) :
  forall acc : gmap N Trackfile * list effect,
  NoDup (map (fun trackfile => ID (Contact trackfile)) l) ->
  (forall trackfile, In trackfile l -> is_Some (acc.1 !! ID (Contact trackfile))) ->
  (size (foldl (collect missionTime) acc l).1
   + length (List.filter (agedOut missionTime) l) = size acc.1)%nat.
Proof.
  induction l as [ | trackfile l IH]; intros acc Hnodup Hin.
  - simpl. lia.
  - rewrite map_cons in Hnodup. apply NoDup_cons in Hnodup as [Hfresh Hnodup].
    cbn [foldl List.filter]. rewrite collect_agedOut.
    assert (forall acc' : gmap N Trackfile * list effect,
              (forall trackfile', In trackfile' l ->
                 acc'.1 !! ID (Contact trackfile')
                 = acc.1 !! ID (Contact trackfile')) ->
              (size (foldl (collect missionTime) acc' l).1
               + length (List.filter (agedOut missionTime) l) = size acc'.1)%nat)
      as Hrest.
    { intros acc' Hsame. apply IH; [ exact Hnodup | ].
      intros trackfile' Hin'. rewrite Hsame by exact Hin'.
      apply Hin. right. exact Hin'. }
    destruct (agedOut missionTime trackfile) eqn:Hold.
    + cbn [length]. rewrite Nat.add_succ_r, Hrest.
      * destruct (Hin trackfile (or_introl eq_refl)) as [x Hx].
        pose proof (map_size_delete_Some (ID (Contact trackfile)) acc.1
                      (ex_intro _ x Hx)) as Hsize.
        pose proof (map_size_ne_0_lookup_2 acc.1 (ID (Contact trackfile))
                      (ex_intro _ x Hx)) as Hpos.
        simpl. lia.
      * intros trackfile' Hin'. simpl. apply lookup_delete_ne.
        intros Heq. apply Hfresh. rewrite Heq.
        apply list_elem_of_In.
        apply (in_map (fun trackfile => ID (Contact trackfile)) l trackfile' Hin').
    + apply Hrest. reflexivity.
Qed.

(** In a database where every trackfile sits under its own ID, the IDs of
    the values are the keys. *)
Lemma values_ids (d : gmap N Trackfile) :
  keyed d ->
  map (fun trackfile => ID (Contact trackfile)) (contactDatabase.values d)
  = (map_to_list d).*1.
Proof.
  intros Hkeyed. unfold contactDatabase.values.
  assert (Forall (fun kv => ID (Contact kv.2) = kv.1) (map_to_list d)) as Hall.
  { apply Forall_forall. intros [id trackfile] Hin.
    apply elem_of_map_to_list in Hin. simpl. apply (Hkeyed _ _ Hin). }
  induction Hall as [ | [id trackfile] l Hhead _ IH]; simpl.
  - reflexivity.
  - simpl in Hhead. rewrite Hhead. f_equal. exact IH.
Qed.

Lemma filter_none {A : Type} (f : A -> bool) (l : list A) :
  (forall x, In x l -> f x = false) -> List.filter f l = [].
Proof.
  induction l as [ | x l IH]; intros Hall; simpl.
  - reflexivity.
  - rewrite (Hall x (or_introl eq_refl)). apply IH.
    intros y Hy. apply Hall. right. exact Hy.
Qed.

(** X5. In a database where every trackfile sits under its own unit ID, a
    garbage collection keeps a trackfile exactly when its last frame is at
    the zero instant or is not older than the mission time minus sixty
    seconds, removes it otherwise, and adds nothing. A trackfile last seen
    exactly sixty seconds before the mission time stays. *)
Theorem handleGarbageCollection_keeps (s : scope) (id : N)
    (trackfile : Trackfile) :
  keyed (contacts s) ->
  contacts s !! id = Some trackfile ->
  let lastSeen := Time (LastKnown trackfile) in
  let after := contacts (handleGarbageCollection s).1 in
  (after !! id = Some trackfile <->
     lastSeen = 0 \/ missionTime s - 60 * 1000000000 <= lastSeen)
  /\ (after !! id = None <->
        lastSeen <> 0 /\ lastSeen < missionTime s - 60 * 1000000000)
  /\ (lastSeen = missionTime s - 60 * 1000000000 -> after !! id = Some trackfile)
  /\ (forall id', contacts s !! id' = None -> after !! id' = None).
Proof.
  intros Hkeyed Hid lastSeen after. subst after.
  pose proof (agedOut_iff (missionTime s) trackfile) as Hold.
  fold lastSeen in Hold.
  assert (contacts (handleGarbageCollection s).1 !! id
          = if agedOut (missionTime s) trackfile then None else Some trackfile)
    as Hafter.
  { rewrite handleGarbageCollection_contacts by exact Hkeyed.
    rewrite Hid. reflexivity. }
  assert (forall id', contacts s !! id' = None ->
            contacts (handleGarbageCollection s).1 !! id' = None) as Hnew.
  { intros id' Hnone.
    rewrite handleGarbageCollection_contacts, Hnone by exact Hkeyed.
    reflexivity. }
  rewrite Hafter.
  destruct (agedOut (missionTime s) trackfile).
  - assert (lastSeen <> 0 /\ lastSeen < missionTime s - 60 * 1000000000)
      as [Hnz Hlt] by (apply Hold; reflexivity).
    split; [ | split; [ | split ] ].
    + split; [ discriminate | lia ].
    + split; [ intros _; split; assumption | reflexivity ].
    + lia.
    + exact Hnew.
  - assert (lastSeen = 0 \/ missionTime s - 60 * 1000000000 <= lastSeen)
      as Hyoung.
    { destruct (Z.eq_dec lastSeen 0) as [Hz | Hnz]; [ left; exact Hz | ].
      destruct (Z_lt_le_dec lastSeen (missionTime s - 60 * 1000000000))
        as [Hlt | Hle]; [ | right; exact Hle ].
      assert (false = true) by (apply Hold; split; assumption).
      discriminate. }
    split; [ | split; [ | split ] ].
    + split; [ intros _; exact Hyoung | reflexivity ].
    + split; [ discriminate | lia ].
    + reflexivity.
    + exact Hnew.
Qed.

(** X6. A garbage collection logs one "removed aged out trackfile" line for
    each trackfile it removes and nothing else: the size of the database
    before is the size after plus the number of lines. *)
Theorem handleGarbageCollection_log_count (s : scope) :
  keyed (contacts s) ->
  (size (contacts s)
   = size (contacts (handleGarbageCollection s).1)
     + length (handleGarbageCollection s).2)%nat
  /\ Forall (fun e => e = removedLine) (handleGarbageCollection s).2.
Proof.
  intros Hkeyed. unfold handleGarbageCollection. simpl.
  rewrite foldl_collect_effects. simpl. rewrite length_replicate. split.
  - symmetry. apply (foldl_collect_size (missionTime s)
                       (contactDatabase.values (contacts s)) (contacts s, [])).
    + rewrite values_ids by exact Hkeyed. apply NoDup_fst_map_to_list.
    + intros trackfile Hin. simpl.
      apply list_elem_of_In, elem_of_values in Hin as [id Hid].
      rewrite (Hkeyed _ _ Hid). eauto.
  - apply Forall_forall. intros e Hin.
    apply elem_of_replicate in Hin as [-> _]. reflexivity.
Qed.

(** X7. A second garbage collection at the same mission time removes
    nothing and logs nothing. *)
Theorem handleGarbageCollection_twice (s : scope) :
  keyed (contacts s) ->
  handleGarbageCollection (handleGarbageCollection s).1
  = ((handleGarbageCollection s).1, []).
Proof.
  intros Hkeyed.
  pose proof (handleGarbageCollection_keyed s Hkeyed) as Hkeyed1.
  set (s1 := (handleGarbageCollection s).1) in *.
  assert (missionTime s1 = missionTime s) as Htime by reflexivity.
  assert (forall id trackfile, contacts s1 !! id = Some trackfile ->
            agedOut (missionTime s) trackfile = false) as Hyoung.
  { intros id trackfile. subst s1.
    rewrite handleGarbageCollection_contacts by exact Hkeyed.
    destruct (contacts s !! id) as [trackfile' | ]; [ | discriminate ].
    destruct (agedOut (missionTime s) trackfile') eqn:Hold; [ discriminate | ].
    intros [= <-]. exact Hold. }
  assert (contacts (handleGarbageCollection s1).1 = contacts s1) as Hsame.
  { apply map_eq. intros id.
    rewrite handleGarbageCollection_contacts by exact Hkeyed1.
    destruct (contacts s1 !! id) as [trackfile | ] eqn:Hid; [ | reflexivity ].
    rewrite Htime, (Hyoung _ _ Hid). reflexivity. }
  assert ((handleGarbageCollection s1).2 = []) as Hquiet.
  { unfold handleGarbageCollection. cbn [fst snd].
    rewrite foldl_collect_effects. cbn [fst snd app].
    rewrite Htime, filter_none; [ reflexivity | ].
    intros trackfile Hin.
    apply list_elem_of_In, elem_of_values in Hin as [id Hid].
    apply (Hyoung _ _ Hid). }
  apply injective_projections; [ | exact Hquiet ].
  apply radar_bullseye_again.scope_eq; try reflexivity. exact Hsame.
Qed.

Lemma keyed_scope_aged_out : keyed (contacts scope_aged_out).
Proof.
  intros id trackfile Hid.
  change ((
    {[ 2%N := trackfile2 ]} : gmap N Trackfile) !! id = Some trackfile) in Hid.
  apply lookup_singleton_Some in Hid as [<- <-]. reflexivity.
Defined.

Lemma handleGarbageCollection_keeps_witness :
  contacts (handleGarbageCollection scope_aged_out).1 !! 2%N = None
  <-> Time (LastKnown trackfile2) <> 0
      /\ Time (LastKnown trackfile2)
         < missionTime scope_aged_out - 60 * 1000000000.
Proof.
  apply (handleGarbageCollection_keeps scope_aged_out 2%N trackfile2
           keyed_scope_aged_out eq_refl).
Defined.

Lemma handleGarbageCollection_log_count_witness :
  (size (contacts scope_aged_out)
   = size (contacts (handleGarbageCollection scope_aged_out).1)
     + length (handleGarbageCollection scope_aged_out).2)%nat
  /\ Forall (fun e => e = removedLine) (handleGarbageCollection scope_aged_out).2.
Proof.
  apply (handleGarbageCollection_log_count scope_aged_out keyed_scope_aged_out).
Defined.

Lemma handleGarbageCollection_twice_witness :
  handleGarbageCollection (handleGarbageCollection scope_aged_out).1
  = ((handleGarbageCollection scope_aged_out).1, []).
Proof.
  apply (handleGarbageCollection_twice scope_aged_out keyed_scope_aged_out).
Defined.

End radar_gc.

(** ** pkg/radar: where the trackfiles of a scope come from *)

Module radar_updates.

Import trackfiles effects radar radar_contacts.

Section Retention.

Variable retention : nat.

Local Abbreviation handleUpdate := (radar.handleUpdate retention).

(** X9. [handleUpdate] logs "created new trackfile" exactly when the unit
    ID had no trackfile, and leaves the ID with a trackfile in every case.
    So of two updates in a row for one unit ID the second creates nothing:
    it logs nothing and the database keeps its keys. *)
Theorem handleUpdate_twice (update update' : sim.Updated) (s : scope) :
  ID (sim.Labels update') = ID (sim.Labels update) ->
  let id := ID (sim.Labels update) in
  let s1 := (handleUpdate update s).1 in
  ((handleUpdate update s).2 = [Log Info None "created new trackfile"]
     <-> contacts s !! id = None)
  /\ ((handleUpdate update s).2 = [] <-> is_Some (contacts s !! id))
  /\ is_Some (contacts s1 !! id)
  /\ (handleUpdate update' s1).2 = []
  /\ dom (contacts (handleUpdate update' s1).1) = dom (contacts s1).
Proof.
  intros Hsame id s1.
  assert (is_Some (contacts s1 !! id)) as [trackfile1 Hid1].
  { subst s1. unfold radar.handleUpdate, contactDatabase.getByID. fold id.
    destruct (contacts s !! id) as [trackfile | ]; simpl.
    - rewrite lookup_insert_eq. eauto.
    - unfold contactDatabase.set. simpl. fold id.
      rewrite lookup_insert_eq. eauto. }
  split; [ | split; [ | split; [ eauto | ] ] ].
  - unfold radar.handleUpdate, contactDatabase.getByID. fold id.
    destruct (contacts s !! id); simpl; split; congruence.
  - unfold radar.handleUpdate, contactDatabase.getByID. fold id.
    destruct (contacts s !! id); simpl; split;
      try discriminate; eauto.
    intros [x Hx]. discriminate.
  - unfold radar.handleUpdate at 1 2, contactDatabase.getByID.
    rewrite Hsame. fold id. rewrite Hid1. simpl. split; [ reflexivity | ].
    apply dom_insert_lookup_L. eauto.
Qed.

End Retention.

Lemma handleUpdate_twice_witness :
  (radar.handleUpdate 10 (update2 (T + time.Second) 30.5)
     (radar.handleUpdate 10 (update2 T 30) (New 0)).1).2 = [].
Proof.
  apply (handleUpdate_twice 10 (update2 T 30) (update2 (T + time.Second) 30.5)
           (New 0)).
  reflexivity.
Defined.

End radar_updates.

(** ** pkg/radar: the labels of the trackfiles a scope holds *)

Module radar_provenance.

Import trackfiles effects radar radar_contacts.

(** Every trackfile of the database carries the labels of an update of the
    history, and sits under the unit ID of those labels. *)
Definition fromUpdates (history : list event) (d : gmap N Trackfile) : Prop :=
  forall id trackfile, d !! id = Some trackfile ->
  exists update,
    Updated update ∈ history
    /\ Contact trackfile = sim.Labels update
    /\ ID (sim.Labels update) = id.

Lemma fromUpdates_more (history history' : list event) (d : gmap N Trackfile) :
  fromUpdates history d -> fromUpdates (history ++ history') d.
Proof.
  intros Hd id trackfile Hid. destruct (Hd id trackfile Hid) as (u & Hu & Hrest).
  exists u. split; [ | exact Hrest ]. apply elem_of_app. left. exact Hu.
Qed.

Lemma handleGarbageCollection_subset (s : scope) (id : N)
    (trackfile : Trackfile) :
  contacts (handleGarbageCollection s).1 !! id = Some trackfile ->
  contacts s !! id = Some trackfile.
Proof.
  unfold handleGarbageCollection. simpl. rewrite foldl_collect_lookup. simpl.
  destruct (existsb _ _); [ discriminate | trivial ].
Qed.

Section Collaborators.

Variable Speed : Trackfile -> float.
Variable unit_Knot : float.
Variable retention : nat.
Variable centroid : list Trackfile -> orb.Point.

Local Abbreviation handle := (radar.handle Speed unit_Knot retention centroid).
Local Abbreviation Run := (radar.Run Speed unit_Knot retention centroid).

Lemma handle_fromUpdates (history : list event) (e : event) (s : scope) :
  fromUpdates history (contacts s) ->
  fromUpdates (history ++ [e]) (contacts (handle e s).1).
Proof.
  intros Hs.
  destruct e as [t | u | | | id0 | t | p c | f | f]; simpl;
    try (apply fromUpdates_more; exact Hs).
  - intros id trackfile. unfold contactDatabase.reset.
    rewrite lookup_empty. discriminate.
  - intros id trackfile. unfold handleUpdate, contactDatabase.getByID.
    destruct (contacts s !! ID (sim.Labels u)) as [old | ] eqn:Hold; simpl;
      unfold contactDatabase.set; simpl;
      (destruct (decide (ID (sim.Labels u) = id)) as [<- | Hne];
       [ rewrite lookup_insert_eq; intros [= <-]; simpl
       | rewrite lookup_insert_ne by exact Hne;
         intros Hid; apply (fromUpdates_more _ [Updated u] _ Hs _ _ Hid) ]).
    + apply (fromUpdates_more _ [Updated u] _ Hs _ _ Hold).
    + exists u. split; [ | split; reflexivity ].
      apply elem_of_app. right. apply list_elem_of_singleton. reflexivity.
  - intros id trackfile Hid. apply handleGarbageCollection_subset in Hid.
    apply (fromUpdates_more _ [GcTick] _ Hs _ _ Hid).
  - intros id trackfile. unfold handleFaded, contactDatabase.getByID.
    destruct (contacts s !! id0); simpl.
    + unfold contactDatabase.delete. intros [_ Hid]%lookup_delete_Some.
      apply (fromUpdates_more _ [Faded id0] _ Hs _ _ Hid).
    + intros Hid. apply (fromUpdates_more _ [Faded id0] _ Hs _ _ Hid).
Qed.

Lemma foldl_handle_fromUpdates (history : list event) :
  forall (seen : list event) (acc : scope * list effect),
  fromUpdates seen (contacts acc.1) ->
  fromUpdates (seen ++ history)
    (contacts
       (foldl (fun acc e => let r := handle e acc.1 in (r.1, acc.2 ++ r.2))
          acc history).1).
Proof.
  induction history as [ | e history IH]; intros seen acc Hacc; simpl.
  - rewrite app_nil_r. exact Hacc.
  - replace (seen ++ e :: history) with ((seen ++ [e]) ++ history)
      by (rewrite <- app_assoc; reflexivity).
    apply IH. simpl. apply handle_fromUpdates. exact Hacc.
Qed.

(** X8. Whatever a scope made by [New] has gone through, a trackfile found
    under a unit ID carries that ID, and its labels are those of an update
    of the history for that ID: no other event puts a trackfile into the
    database or changes the labels of one. *)
Theorem Run_trackfiles_from_updates (mandatoryThreatRadius : float)
    (history : list event) (id : N) (trackfile : Trackfile) :
  contacts (Run history (New mandatoryThreatRadius)).1 !! id = Some trackfile ->
  ID (Contact trackfile) = id
  /\ exists update,
       Updated update ∈ history /\ Contact trackfile = sim.Labels update.
Proof.
  intros Hid.
  assert (fromUpdates ([] ++ history)
            (contacts (Run history (New mandatoryThreatRadius)).1)) as Hall.
  { unfold radar.Run, radar.loop. apply foldl_handle_fromUpdates. simpl.
    intros id' trackfile'. unfold contactDatabase.newContactDatabase.
    rewrite lookup_empty. discriminate. }
  destruct (Hall id trackfile Hid) as (u & Hu & Hlabels & Hkey).
  split; [ congruence | ]. exists u. split; assumption.
Qed.

End Collaborators.

Lemma Run_trackfiles_from_updates_witness :
  ID (Contact trackfile2) = 2%N
  /\ exists update,
       Updated update ∈ history_aged_out
       /\ Contact trackfile2 = sim.Labels update.
Proof.
  apply (Run_trackfiles_from_updates (fun _ => 0%float) 0.5%float 10
           (fun _ => orb.zero) 0%float history_aged_out 2%N trackfile2).
  vm_compute. reflexivity.
Defined.

End radar_provenance.

(** ** pkg/radar: the filters at their edges *)

Module radar_filters_edge.

Import trackfiles radar float64_nan.

Section Collaborators.

Variable Speed : Trackfile -> float.
Variable unit_Knot : float.
Context {ContactCategory : Type} `{EqDecision ContactCategory}.
Variable brevity_Aircraft : ContactCategory.
Variable Aircraft : Type.
Variable Category : Aircraft -> ContactCategory.
Variable GetAircraftData : string -> Aircraft * bool.

Local Abbreviation isValidTrack := (radar.isValidTrack Speed unit_Knot).
Local Abbreviation isMatch :=
  (radar.isMatch Speed unit_Knot brevity_Aircraft Aircraft Category
     GetAircraftData).

(** X10. A trackfile whose speed is NaN is not valid, wherever it is, and
    matches no coalition and no category filter, the wildcard included. *)
Theorem isValidTrack_nan_speed (trackfile : Trackfile) :
  is_nan (Speed trackfile) ->
  isValidTrack trackfile = false
  /\ forall s coalition filter, isMatch s trackfile coalition filter = false.
Proof.
  intros Hnan.
  assert (isValidTrack trackfile = false) as Hinvalid.
  { unfold radar.isValidTrack. cbv zeta.
    rewrite (gt_nan_l _ _ Hnan). apply andb_false_r. }
  split; [ exact Hinvalid | ].
  intros s coalition filter. unfold radar.isMatch. rewrite Hinvalid.
  destruct (negb (Coalition (Contact trackfile) =? coalition)); reflexivity.
Qed.

(** X11. Whatever matches some category filter matches the any-aircraft
    wildcard for the same coalition; and for an aircraft that is not in the
    encyclopedia the filter makes no difference at all. *)
Theorem isMatch_wildcard (s : scope) (trackfile : Trackfile)
    (coalition : coalitions.Coalition) :
  (forall filter,
     isMatch s trackfile coalition filter = true ->
     isMatch s trackfile coalition brevity_Aircraft = true)
  /\ ((GetAircraftData (ACMIName (Contact trackfile))).2 = false ->
      forall filter filter',
        isMatch s trackfile coalition filter
        = isMatch s trackfile coalition filter').
Proof.
  unfold radar.isMatch. split.
  - intros filter.
    destruct (negb (Coalition (Contact trackfile) =? coalition));
      [ discriminate | ].
    destruct (negb (radar.isValidTrack Speed unit_Knot trackfile));
      [ discriminate | ].
    destruct (GetAircraftData (ACMIName (Contact trackfile))) as [data ok].
    intros _. cbv zeta. rewrite (bool_decide_eq_true_2 _ eq_refl).
    apply orb_true_r.
  - intros Hmiss filter filter'.
    destruct (GetAircraftData (ACMIName (Contact trackfile))) as [data ok].
    simpl in Hmiss. subst ok. reflexivity.
Qed.

End Collaborators.

(** A contact whose speed cannot be computed. *)
Lemma isValidTrack_nan_speed_witness :
  radar.isValidTrack (fun _ => nan) 0.5%float radar_filters.at_fifty_knots
  = false.
Proof.
  apply (isValidTrack_nan_speed (fun _ => nan) 0.5%float 0
           Z (fun category => category) (fun _ => (0, false))
           radar_filters.at_fifty_knots).
  reflexivity.
Defined.

(** An encyclopedia of one aircraft, of category 1; 0 is the wildcard. *)
Definition lookupF15 (name : string) : Z * bool :=
  if decide (name = "F-15C") then (1, true) else (0, false).

Lemma isMatch_wildcard_witness :
  radar.isMatch (fun _ => 100%float) 0.5%float 0 Z (fun category => category)
    lookupF15 (New 0) radar_filters.at_fifty_knots 2 0 = true.
Proof.
  apply (isMatch_wildcard (fun _ => 100%float) 0.5%float 0 Z
           (fun category => category) lookupF15 (New 0)
           radar_filters.at_fifty_knots 2) with (filter := 1).
  reflexivity.
Defined.

End radar_filters_edge.

(** ** package encyclopedia: the aircraft map *)

Module encyclopedia_facts.

Section Data.

Variable Aircraft : Type.
Variable ACMIShortName : Aircraft -> string.

Local Abbreviation build :=
  (foldl (fun (out : gmap string Aircraft) a => <[ACMIShortName a := a]> out)).

(** The last entry of a table with a given short name. *)
Fixpoint lastNamed (name : string) (table : list Aircraft) : option Aircraft :=
  match table with
  | [] => None
  | a :: rest =>
      match lastNamed name rest with
      | Some b => Some b
      | None => if decide (ACMIShortName a = name) then Some a else None
      end
  end.

Lemma build_lookup (table : list Aircraft) :
  forall (out : gmap string Aircraft) (name : string),
  build out table !! name
  = match lastNamed name table with
    | Some a => Some a
    | None => out !! name
    end.
Proof.
  induction table as [ | a table IH]; intros out name; simpl.
  - reflexivity.
  - rewrite IH. destruct (lastNamed name table); [ reflexivity | ].
    destruct (decide (ACMIShortName a = name)) as [<- | Hne].
    + apply lookup_insert_eq.
    + apply lookup_insert_ne. exact Hne.
Qed.

Lemma lastNamed_Some (name : string) (table : list Aircraft) (a : Aircraft) :
  lastNamed name table = Some a -> a ∈ table /\ ACMIShortName a = name.
Proof.
  induction table as [ | b table IH]; simpl; [ discriminate | ].
  destruct (lastNamed name table) as [c | ].
  - intros [= ->]. destruct (IH eq_refl) as [Hin Hname].
    split; [ right; exact Hin | exact Hname ].
  - destruct (decide (ACMIShortName b = name)); [ | discriminate ].
    intros [= ->]. split; [ left | assumption ].
Qed.

Lemma lastNamed_None (name : string) (table : list Aircraft) :
  lastNamed name table = None <->
  forall a, a ∈ table -> ACMIShortName a <> name.
Proof.
  induction table as [ | b table IH]; simpl.
  - split; [ intros _ a Hin; apply elem_of_nil in Hin; contradiction | trivial ].
  - destruct (lastNamed name table) as [c | ] eqn:Hlast.
    + split; [ discriminate | ]. intros Hall.
      destruct (lastNamed_Some _ _ _ Hlast) as [Hin Hname].
      destruct (Hall c); [ right; exact Hin | exact Hname ].
    + destruct (decide (ACMIShortName b = name)) as [Heq | Hne].
      * split; [ discriminate | ]. intros Hall.
        destruct (Hall b); [ left | exact Heq ].
      * split; [ | reflexivity ]. intros _ a [-> | Hin]%elem_of_cons.
        -- exact Hne.
        -- apply (proj1 IH eq_refl). exact Hin.
Qed.

Variable aircraftData : list Aircraft.

Local Abbreviation encyclopedia_Aircraft :=
  (encyclopedia.encyclopedia_Aircraft Aircraft ACMIShortName aircraftData).

(** X12. In the map [Aircraft()] returns, every value is an entry of the
    aircraft table stored under its own short name, and a name is a key
    exactly when some entry of the table has it. *)
Theorem Aircraft_keys (name : string) :
  (forall a, encyclopedia_Aircraft !! name = Some a ->
     a ∈ aircraftData /\ ACMIShortName a = name)
  /\ (is_Some (encyclopedia_Aircraft !! name) <->
      exists a, a ∈ aircraftData /\ ACMIShortName a = name).
Proof.
  unfold encyclopedia.encyclopedia_Aircraft. cbv zeta.
  rewrite build_lookup, lookup_empty. split.
  - intros a Ha. apply lastNamed_Some.
    destruct (lastNamed name aircraftData); [ exact Ha | discriminate ].
  - destruct (lastNamed name aircraftData) as [b | ] eqn:Hlast.
    + split; [ | eauto ]. intros _. exists b.
      apply (lastNamed_Some _ _ _ Hlast).
    + split; [ intros [x Hx]; discriminate | ].
      intros (a & Hin & Hname). exfalso.
      apply (proj1 (lastNamed_None name aircraftData) Hlast a Hin Hname).
Qed.

(** X13. When two entries of the aircraft table share a short name, the map
    holds the later one: looking a name up gives the last entry of the table
    with that name. An entry whose short name no later entry has is found
    under its name. *)
Theorem Aircraft_last_wins (before after : list Aircraft) (a : Aircraft) :
  aircraftData = before ++ a :: after ->
  (forall b, b ∈ after -> ACMIShortName b <> ACMIShortName a) ->
  encyclopedia_Aircraft !! ACMIShortName a = Some a.
Proof.
  intros -> Hlater. unfold encyclopedia.encyclopedia_Aircraft. cbv zeta.
  rewrite foldl_app. simpl. rewrite build_lookup.
  apply lastNamed_None in Hlater. rewrite Hlater.
  apply lookup_insert_eq.
Qed.

End Data.

(** A table that lists one short name twice. *)
Definition twoHornets : list (string * Z) :=
  [("FA-18C", 1); ("F-15C", 1); ("FA-18C", 2)].

Lemma Aircraft_last_wins_witness :
  encyclopedia.encyclopedia_Aircraft (string * Z) fst twoHornets !! "FA-18C"
  = Some ("FA-18C", 2).
Proof.
  apply (Aircraft_last_wins (string * Z) fst twoHornets
           [("FA-18C", 1); ("F-15C", 1)] [] ("FA-18C", 2)).
  - reflexivity.
  - intros b Hb. apply elem_of_nil in Hb. contradiction.
Defined.

Lemma Aircraft_keys_witness :
  ("FA-18C", 2) ∈ twoHornets /\ fst ("FA-18C", 2) = "FA-18C".
Proof.
  apply (proj1 (Aircraft_keys (string * Z) fst twoHornets "FA-18C")
           ("FA-18C", 2)).
  vm_compute. reflexivity.
Defined.

End encyclopedia_facts.

(** ** package simpleradio: what the constructor returns *)

Module simpleradio_new_facts.

Import simpleradio_new.

Section NewClient.

Variable GUID : Type.
Variable ClientConfiguration : Type.
Variable DataClient : Type.
Variable AudioClient : Type.
Variable data_NewClient :
  GUID -> ClientConfiguration -> DataClient * option errors.error.
Variable audio_NewClient :
  GUID -> ClientConfiguration -> AudioClient * option errors.error.

Local Abbreviation NewClient :=
  (simpleradio_new.NewClient GUID ClientConfiguration DataClient AudioClient
     data_NewClient audio_NewClient).

Local Ltac no_client :=
  match goal with
  | H : is_Some None |- _ => destruct H as [? H]; discriminate H
  | H : Some _ = None |- _ => discriminate H
  | H : None = Some _ |- _ => discriminate H
  | H : _ /\ _ |- _ => destruct H
  end.

(** X14. [NewClient] returns either a client and no error or no client and
    an error, never both and never neither. It returns a client exactly
    when both constructors succeed, built from what they returned. When the
    data client cannot be made the error wraps that failure, whatever the
    audio constructor would say; otherwise a failure of the audio
    constructor is wrapped, under another prefix. *)
Theorem NewClient_result (guid : GUID) (config : ClientConfiguration) :
  let made := NewClient guid config in
  let d := data_NewClient guid config in
  let a := audio_NewClient guid config in
  (is_Some made.1 <-> made.2 = None)
  /\ (is_Some made.1 <-> d.2 = None /\ a.2 = None)
  /\ (d.2 = None -> a.2 = None ->
      made = (Some (mkClient _ _ d.1 a.1), None))
  /\ (forall err, d.2 = Some err ->
      made = (None,
              Some (errors.Errorf_w "failed to construct SRS data client: " err)))
  /\ (forall err, d.2 = None -> a.2 = Some err ->
      made = (None,
              Some (errors.Errorf_w "failed to construct SRS audio client: " err))).
Proof.
  intros made d a. subst made d a. unfold simpleradio_new.NewClient.
  destruct (data_NewClient guid config) as [dataClient [derr | ]];
    destruct (audio_NewClient guid config) as [audioClient [aerr | ]];
    simpl;
    (split; [ | split; [ | split; [ | split ] ] ]);
    try (split; intros; repeat no_client; solve [ eauto ]);
    intros; repeat no_client; congruence.
Qed.

End NewClient.

(** Constructors over a configuration that is the server address: the data
    client connects unless the address is empty, the audio client always. *)
Definition dial (guid : string) (address : string) : string * option errors.error :=
  if decide (address = "") then ("", Some (errors.New "missing address"))
  else (address, None).

Definition listen (guid : string) (address : string) : string * option errors.error :=
  (guid, None).

Lemma NewClient_result_witness :
  simpleradio_new.NewClient string string string string dial listen
    "guid" "" =
  (None,
   Some (errors.Errorf_w "failed to construct SRS data client: "
           (errors.New "missing address")))
  /\ simpleradio_new.NewClient string string string string dial listen
       "guid" "srs.example:5002" =
     (Some (mkClient _ _ "srs.example:5002" "guid"), None).
Proof.
  split.
  - apply (NewClient_result string string string string dial listen "guid" "").
    reflexivity.
  - apply (NewClient_result string string string string dial listen "guid"
             "srs.example:5002"); reflexivity.
Defined.

End simpleradio_new_facts.

(** ** package simpleradio: the turn on which [Run] returns *)

Module simpleradio_return.

Import effects simpleradio simpleradio_run.

Lemma quiet_silent (sel : selected) : quiet sel -> turn sel = ([], None).
Proof.
  unfold quiet. destruct sel as [ctxErr | err | now lastPing]; simpl;
    try discriminate.
  destruct (1 * time.Minute <? time.Since now lastPing);
    [ discriminate | reflexivity ].
Qed.

Lemma Run_skip (choices rest : list selected) :
  Forall quiet choices -> Run (choices ++ rest) = Run rest.
Proof.
  induction 1 as [ | sel choices Hsel _ IH]; simpl.
  - reflexivity.
  - rewrite (quiet_silent sel Hsel), IH. simpl.
    destruct (Run rest). reflexivity.
Qed.

Lemma Run_looping (choices : list selected) :
  (Run choices).2 = None <-> Forall quiet choices.
Proof.
  induction choices as [ | sel choices IH]; simpl.
  - split; [ constructor | reflexivity ].
  - destruct (turn sel) as [out [err | ]] eqn:Hturn; simpl.
    + split; [ discriminate | ]. intros Hall.
      apply Forall_cons in Hall as [Hsel _]. unfold quiet in Hsel.
      rewrite Hturn in Hsel. discriminate.
    + rewrite IH. split.
      * intros Hall. constructor; [ | exact Hall ].
        unfold quiet. rewrite Hturn. reflexivity.
      * intros Hall. apply Forall_cons in Hall as [_ Hall]. exact Hall.
Qed.

(** A tick at which the last ping is sixty seconds old or less. *)
Definition withinDeadline (sel : selected) : Prop :=
  match sel with
  | TickerC now lastPing => now - lastPing <= 60 * 1000000000
  | CtxDone _ | ErrorChan _ => False
  end.

Lemma quiet_withinDeadline (sel : selected) :
  quiet sel <-> withinDeadline sel.
Proof.
  unfold quiet. destruct sel as [ctxErr | err | now lastPing]; simpl.
  - split; [ discriminate | contradiction ].
  - split; [ discriminate | contradiction ].
  - destruct (1 * time.Minute <? time.Since now lastPing) eqn:Hlate; simpl.
    + apply Since_Minute in Hlate. split; [ discriminate | lia ].
    + split; [ | reflexivity ]. intros _.
      destruct (Z_le_gt_dec (now - lastPing) (60 * 1000000000)) as [Hle | Hgt];
        [ exact Hle | ].
      assert (60 * 1000000000 < now - lastPing) as Hlt by lia.
      apply Since_Minute in Hlt. congruence.
Qed.

Lemma Forall_quiet_withinDeadline (choices : list selected) :
  Forall quiet choices <-> Forall withinDeadline choices.
Proof.
  split; intros Hall; (eapply Forall_impl; [ exact Hall | ]);
    intros sel; apply quiet_withinDeadline.
Qed.

(** X15. [Run] is still in its loop exactly when every turn so far was a
    tick with the last ping at most sixty seconds old. After such turns it
    returns on the next turn that is anything else: with the context's
    error wrapped when the context is done, with the subtask's error
    wrapped when one arrives, with the stopped-receiving-pings error at a
    tick that finds the last ping older; and whatever cases would have come
    after that turn make no difference. *)
Theorem Run_returns_on_first_error (choices rest : list selected) :
  ((Run choices).2 = None <-> Forall withinDeadline choices)
  /\ (Forall withinDeadline choices ->
      (forall ctxErr,
         (Run (choices ++ CtxDone ctxErr :: rest)).2
         = Some (errors.Errorf_w "stopping client due to context cancelation: "
                   ctxErr))
      /\ (forall err,
            (Run (choices ++ ErrorChan err :: rest)).2
            = Some (errors.Errorf_w "client error: " err))
      /\ (forall now lastPing,
            60 * 1000000000 < now - lastPing ->
            (Run (choices ++ TickerC now lastPing :: rest)).2
            = Some (errors.New "stopped receiving pings from SRS data client"))).
Proof.
  split.
  - rewrite Run_looping. apply Forall_quiet_withinDeadline.
  - intros Hquiet%Forall_quiet_withinDeadline. split; [ | split ].
    + intros ctxErr. rewrite Run_skip by exact Hquiet. reflexivity.
    + intros err. rewrite Run_skip by exact Hquiet. reflexivity.
    + intros now lastPing Hlate. rewrite Run_skip by exact Hquiet. simpl.
      apply Since_Minute in Hlate. rewrite Hlate. reflexivity.
Qed.

(** X16. The error [Run] returns when pings stop wraps nothing, and its
    message differs from the message of a cancelled [Run] and from the
    message of a [Run] ended by a subtask, whatever errors those wrap. *)
Theorem Run_ping_error_apart (now lastPing : time.Time)
    (ctxErr subErr : errors.error) :
  60 * 1000000000 < now - lastPing ->
  let lost := (Run [TickerC now lastPing]).2 in
  lost = Some pingError
  /\ lost ≫= errors.Unwrap = None
  /\ errors.Error <$> lost <> errors.Error <$> (Run [CtxDone ctxErr]).2
  /\ errors.Error <$> lost <> errors.Error <$> (Run [ErrorChan subErr]).2.
Proof.
  intros Hlate lost. subst lost. simpl.
  apply Since_Minute in Hlate. rewrite Hlate. simpl.
  repeat split; discriminate.
Qed.

(** X17. The log lines of [Run]. While every turn is a tick with the last
    ping at most sixty seconds old, [Run] writes nothing. On the turn it
    returns it writes exactly one information line when the context is
    done, exactly one warning when the last ping is older than sixty
    seconds, and nothing when a subtask sent an error. It never writes more
    than one line. *)
Theorem Run_logs (choices rest : list selected) :
  (length (Run choices).1 <= 1)%nat
  /\ (Forall withinDeadline choices ->
      (Run choices).1 = []
      /\ (forall ctxErr,
            (Run (choices ++ CtxDone ctxErr :: rest)).1
            = [Log Info None "stopping SRS client due to context cancelation"])
      /\ (forall err, (Run (choices ++ ErrorChan err :: rest)).1 = [])
      /\ (forall now lastPing,
            60 * 1000000000 < now - lastPing ->
            (Run (choices ++ TickerC now lastPing :: rest)).1
            = [Log Warn None "stopped receiving pings from SRS data client"])).
Proof.
  split.
  - induction choices as [ | sel choices IH]; simpl; [ lia | ].
    destruct sel as [ctxErr | suberr | now lastPing]; simpl; try lia.
    destruct (1 * time.Minute <? time.Since now lastPing); simpl;
      [ lia | exact IH ].
  - intros Hquiet%Forall_quiet_withinDeadline. split; [ | split; [ | split ] ].
    + rewrite <- (app_nil_r choices), Run_skip by exact Hquiet. reflexivity.
    + intros ctxErr. rewrite Run_skip by exact Hquiet. reflexivity.
    + intros err. rewrite Run_skip by exact Hquiet. reflexivity.
    + intros now lastPing Hlate. rewrite Run_skip by exact Hquiet. simpl.
      apply Since_Minute in Hlate. rewrite Hlate. reflexivity.
Qed.

Lemma Run_returns_on_first_error_witness :
  (Run ([TickerC 5000000000 0; TickerC 65000000000 5000000000]
        ++ ErrorChan (errors.New "connection reset")
        :: [CtxDone (errors.New "context canceled")])).2
  = Some (errors.Errorf_w "client error: " (errors.New "connection reset")).
Proof.
  refine (proj1 (proj2 (proj2 (Run_returns_on_first_error
            [TickerC 5000000000 0; TickerC 65000000000 5000000000]
            [CtxDone (errors.New "context canceled")]) _))
          (errors.New "connection reset")).
  repeat constructor; simpl; lia.
Defined.

Lemma Run_ping_error_apart_witness :
  (Run [TickerC 70000000000 5000000000]).2 = Some pingError.
Proof.
  apply (Run_ping_error_apart 70000000000 5000000000
           (errors.New "context canceled") (errors.New "connection reset")).
  lia.
Defined.

Lemma Run_logs_witness :
  (Run ([TickerC 5000000000 0; TickerC 10000000000 5000000000]
        ++ TickerC 70000000000 5000000000 :: [])).1
  = [Log Warn None "stopped receiving pings from SRS data client"].
Proof.
  refine (proj2 (proj2 (proj2 (proj2 (Run_logs
            [TickerC 5000000000 0; TickerC 10000000000 5000000000] []) _)))
          70000000000 5000000000 _).
  - repeat constructor; simpl; lia.
  - lia.
Defined.

End simpleradio_return.

(** ** pkg/radar: declination when the geomagnetic model fails *)

Module radar_declination.

Import effects radar.

(** C6. For every point, when the geomagnetic model fails for it at the
    mission time, [Declination] logs the error and returns a declination of
    exactly zero; when the model succeeds, [Declination] returns the
    model's angle and logs nothing. *)
Theorem Declination_zero_on_error
    (model : orb.Point -> time.Time -> float + errors.error)
    (s : scope) (p : orb.Point) :
  (forall err, model p (missionTime s) = inr err ->
     radar.Declination (bearings.Declination model) s p
     = (0%float, [Log Error (Some err) "failed to get declination"]))
  /\ (forall declination, model p (missionTime s) = inl declination ->
      radar.Declination (bearings.Declination model) s p = (declination, [])).
Proof.
  unfold radar.Declination, bearings.Declination.
  split; intros x Hx; rewrite Hx; reflexivity.
Qed.

(** A geomagnetic model whose coefficients start at the instant 1000 s:
    before it the model fails, from then on the declination is 4.5. *)
Definition model_from_1000 (p : orb.Point) (t : time.Time)
    : float + errors.error :=
  if t <? 1000 * time.Second
  then inr (errors.New "date out of range of the model")
  else inl 4.5%float.

Lemma Declination_zero_on_error_witness :
  radar.Declination (bearings.Declination model_from_1000) (New 0)
    (orb.mkPoint 30 40)
  = (0%float,
     [Log Error (Some (errors.New "date out of range of the model"))
        "failed to get declination"])
  /\ radar.Declination (bearings.Declination model_from_1000)
       (SetMissionTime (2000 * time.Second) (New 0)) (orb.mkPoint 30 40)
     = (4.5%float, []).
Proof.
  split.
  - apply (proj1 (Declination_zero_on_error model_from_1000 (New 0)
                    (orb.mkPoint 30 40))).
    reflexivity.
  - apply (proj2 (Declination_zero_on_error model_from_1000
                    (SetMissionTime (2000 * time.Second) (New 0))
                    (orb.mkPoint 30 40))).
    reflexivity.
Defined.

End radar_declination.
